(** * Saving, loading and training small fully-connected networks

    Shallow embedding of the notebook
    [s1_development_environment/exercise_files/3_Training_Neural_Networks.ipynb]
    (two notebooks: "Training Neural Networks" and "Saving and Loading
    Models").  The notebooks drive an external tensor library; the library
    calls they make are embedded by their documented effect, the notebook
    code around them statement by statement.  Tensor entries are kept as
    integers: every property below only copies them or compares them. *)

From stdpp Require Import base list strings pretty gmap.
From Stdlib Require Import Ascii.

(* ------------------------------------------------------------------ *)
(** ** Tensors, layers and the network *)

Record tensor := mkTensor { shape : list nat; data : list Z }.

(** [nn.Linear(in_features, out_features)]: a weight of shape
    [out x in] and a bias of shape [out]. *)
Record Linear := mkLinear {
  in_features : nat;
  out_features : nat;
  weight : tensor;
  bias : tensor
}.

(** [fc_model.Network]: [hidden_layers] (an [nn.ModuleList]),
    [output] and [dropout], in the order the notebook's printout of the
    model lists them.  [dropout] holds the drop probability as a fraction
    (numerator, denominator). *)
Record Network := mkNetwork {
  hidden_layers : list Linear;
  output : Linear;
  dropout : nat * nat
}.

(** Parameter initialisation is random in the library; [init k shp] stands
    for the values drawn for the [k]-th parameter tensor, of shape [shp]. *)
Definition initialiser := nat -> list nat -> list Z.

(** [nn.Linear(i, o)] created as the [k]-th linear layer of a module. *)
Definition nn_Linear (init : initialiser) (k i o : nat) : Linear :=
  {| in_features := i; out_features := o;
     weight := mkTensor [o; i] (init (2 * k) [o; i]);
     bias := mkTensor [o] (init (2 * k + 1) [o]) |}.

(** Modelled from the spec: [fc_model.Network(input_size, output_size,
    hidden_layers)], whose file [fc_model.py] is not among the sources.
    The spec calls it "a configurable multi-layer perceptron with dropout";
    the layer shapes follow the notebook's printout of
    [fc_model.Network(784, 10, [512, 256, 128])]: a first hidden layer from
    the input size to the first width, one hidden layer per pair of
    consecutive widths, an output layer from the last width to the output
    size, and [Dropout(p=0.5)].  The first width is read as
    [hidden_layers[0]], so an empty list raises ([None]). *)
Fixpoint hidden_from (init : initialiser) (k prev : nat) (hs : list nat)
    : list Linear :=
  match hs with
  | [] => []
  | h :: hs' => nn_Linear init k prev h :: hidden_from init (S k) h hs'
  end.

Definition fc_model_Network (input_size output_size : nat)
    (hs : list nat) (init : initialiser) : option Network :=
  match hs with
  | [] => None
  | _ :: _ =>
      Some {| hidden_layers := hidden_from init 0 input_size hs;
              output := nn_Linear init (length hs) (List.last hs 0) output_size;
              dropout := (1, 2) |}
  end.

(* ------------------------------------------------------------------ *)
(** ** [state_dict]: parameter names as the library forms them *)

(** A submodule's parameter [p] under attribute path [prefix] is named
    [prefix ++ p]; a [ModuleList] names its items by their index. *)
Definition linear_state_dict (prefix : string) (l : Linear)
    : list (string * tensor) :=
  [(prefix +:+ "weight", weight l); (prefix +:+ "bias", bias l)].

Definition hidden_prefix (k : nat) : string :=
  "hidden_layers." +:+ pretty k +:+ ".".

Fixpoint hidden_state_dict (k : nat) (ls : list Linear)
    : list (string * tensor) :=
  match ls with
  | [] => []
  | l :: ls' => linear_state_dict (hidden_prefix k) l ++ hidden_state_dict (S k) ls'
  end.

(** [model.state_dict()]; [Dropout] has no parameters. *)
Definition state_dict (n : Network) : list (string * tensor) :=
  hidden_state_dict 0 (hidden_layers n) ++ linear_state_dict "output." (output n).

Definition keys {A} (d : list (string * A)) : list string := map fst d.

(** Python dict lookup [d[k]] ([None]: [KeyError]). *)
Fixpoint dict_get {A} (k : string) (d : list (string * A)) : option A :=
  match d with
  | [] => None
  | (k', v) :: d' => if decide (k = k') then Some v else dict_get k d'
  end.

(* ------------------------------------------------------------------ *)
(** ** [load_state_dict] *)

Inductive load_error :=
  | SizeMismatch (key : string)
  | MissingKey (key : string)
  | UnexpectedKey (key : string).

(** One parameter: a tensor under its name of the same shape is copied in
    ([param.copy_]); a tensor of another shape is a size mismatch and the
    parameter keeps its value; no tensor is a missing key. *)
Definition load_param (sd : list (string * tensor)) (key : string)
    (cur : tensor) : tensor * list load_error :=
  match dict_get key sd with
  | None => (cur, [MissingKey key])
  | Some t =>
      if decide (shape t = shape cur)
      then (mkTensor (shape cur) (data t), [])
      else (cur, [SizeMismatch key])
  end.

Definition load_linear (sd : list (string * tensor)) (prefix : string)
    (l : Linear) : Linear * list load_error :=
  let '(w, e1) := load_param sd (prefix +:+ "weight") (weight l) in
  let '(b, e2) := load_param sd (prefix +:+ "bias") (bias l) in
  ({| in_features := in_features l; out_features := out_features l;
      weight := w; bias := b |}, e1 ++ e2).

Fixpoint load_hidden (sd : list (string * tensor)) (k : nat)
    (ls : list Linear) : list Linear * list load_error :=
  match ls with
  | [] => ([], [])
  | l :: ls' =>
      let '(l', e) := load_linear sd (hidden_prefix k) l in
      let '(ls'', e') := load_hidden sd (S k) ls' in
      (l' :: ls'', e ++ e')
  end.

(** [model.load_state_dict(state_dict)] (strict): every parameter is
    loaded in turn, keys of the state dict naming no parameter are
    unexpected.  The result is the module after the copies and the errors
    collected; the call raises [RuntimeError] when there is any. *)
Definition load_state_dict (n : Network) (sd : list (string * tensor))
    : Network * list load_error :=
  let '(hs, eh) := load_hidden sd 0 (hidden_layers n) in
  let '(o, eo) := load_linear sd "output." (output n) in
  let unexpected :=
    map UnexpectedKey
        (filter (fun k => k ∉ keys (state_dict n)) (keys sd)) in
  ({| hidden_layers := hs; output := o; dropout := dropout n |},
   eh ++ eo ++ unexpected).

(* ------------------------------------------------------------------ *)
(** ** Python values, files, [torch.save] and [torch.load] *)

#[warnings="-register-all"]
Inductive pyval :=
  | PyInt (n : nat)
  | PyList (l : list pyval)
  | PyTensor (t : tensor)
  | PyDict (d : list (string * pyval)).

Definition state_dict_value (sd : list (string * tensor)) : pyval :=
  PyDict (map (fun '(k, t) => (k, PyTensor t)) sd).

(** What a path on disk holds: a pickled object, or a dataset directory
    written by a dataset download. *)
Inductive fentry :=
  | Pickled (v : pyval)
  | DatasetFiles (name : string).

Abbreviation filesystem := (gmap string fentry).

(** [torch.save(obj, path)] *)
Definition torch_save (v : pyval) (path : string) (fs : filesystem)
    : filesystem :=
  <[path := Pickled v]> fs.

(** [torch.load(path)] ([None]: the file is missing or not a pickle). *)
Definition torch_load (path : string) (fs : filesystem) : option pyval :=
  match fs !! path with
  | Some (Pickled v) => Some v
  | _ => None
  end.

Definition as_int (v : pyval) : option nat :=
  match v with PyInt n => Some n | _ => None end.

Definition as_dict (v : pyval) : option (list (string * pyval)) :=
  match v with PyDict d => Some d | _ => None end.

Fixpoint as_int_list (l : list pyval) : option (list nat) :=
  match l with
  | [] => Some []
  | PyInt n :: l' => n' ← as_int_list l'; Some (n :: n')
  | _ :: _ => None
  end.

Fixpoint as_tensor_items (d : list (string * pyval))
    : option (list (string * tensor)) :=
  match d with
  | [] => Some []
  | (k, PyTensor t) :: d' => d'' ← as_tensor_items d'; Some ((k, t) :: d'')
  | _ :: _ => None
  end.

(** The notebook's checkpoint cell, with the sizes it writes as
    parameters (the notebook writes [784] and [10]):
<<
checkpoint = {
    "input_size": 784,
    "output_size": 10,
    "hidden_layers": [each.out_features for each in model.hidden_layers],
    "state_dict": model.state_dict(),
}
>> *)
Definition make_checkpoint (input_size output_size : nat) (model : Network)
    : pyval :=
  PyDict [("input_size", PyInt input_size);
          ("output_size", PyInt output_size);
          ("hidden_layers",
             PyList (map (fun each => PyInt (out_features each))
                         (hidden_layers model)));
          ("state_dict", state_dict_value (state_dict model))].

Definition checkpoint (model : Network) : pyval := make_checkpoint 784 10 model.

(** [load_checkpoint(filepath)]; the fresh network draws its initial
    values from [init].  [None]: an exception escapes. *)
Definition load_checkpoint (filepath : string) (fs : filesystem)
    (init : initialiser) : option Network :=
  ckv ← torch_load filepath fs;
  ck ← as_dict ckv;
  i ← dict_get "input_size" ck ≫= as_int;
  o ← dict_get "output_size" ck ≫= as_int;
  hsv ← dict_get "hidden_layers" ck;
  hs ← (match hsv with PyList l => as_int_list l | _ => None end);
  sdv ← dict_get "state_dict" ck;
  sd ← as_dict sdv ≫= as_tensor_items;
  model ← fc_model_Network i o hs init;
  let '(model', errs) := load_state_dict model sd in
  if decide (errs = []) then Some model' else None.

(* ------------------------------------------------------------------ *)
(** ** The MNIST training cell

<<
epochs = 5
for _ in range(epochs):
    running_loss = 0
    for images, labels in trainloader:
        images = images.view(images.shape[0], -1)
        output = model(images)
        loss = criterion(output, labels)
        optimizer.zero_grad()
        loss.backward()
        optimizer.step()
        running_loss += loss.item()
    else:
        print(f"Training loss: {running_loss / len(trainloader)}")
>>

    The library calls are abstract: the model's call reads the parameters
    and returns an output, the loss is a function of output and labels,
    [zero_grad] and [backward] act on the stored gradients, [step] computes
    new parameters from the old ones and the gradients.  The loader yields
    the batches of epoch [e] (it reshuffles every epoch).  Every statement
    is logged with the parameters after it. *)

(** The library as the training cell uses it. *)
Class TrainLib := {
  Batch : Type; Labels : Type; Params : Type; Grads : Type;
  Out : Type; Loss : Type; Real : Type;
  view_flat : Batch -> Batch;
  forward : Params -> Batch -> Out;
  criterion : Out -> Labels -> Loss;
  zero_grad : Grads -> Grads;
  backward : Loss -> Grads -> Grads;
  step : Params -> Grads -> Params;
  item : Loss -> Real;
  R0 : Real;
  Radd : Real -> Real -> Real;
  Rdiv_nat : Real -> nat -> Real
}.

Section Training.
Context `{TrainLib}.

(** A DataLoader: the batches it yields in epoch [e]. *)
Definition loader := nat -> list (Batch * Labels).

Inductive op :=
  | OView (images : Batch)
  | OForward (input : Batch)
  | OLoss
  | OZeroGrad
  | OBackward
  | OStep
  | OItem (r : Real)
  | OPrint (r : Real).

Record tstate := mkTstate {
  params : Params;
  grads : Grads;
  running_loss : Real
}.

(** The body of the inner loop, on one batch. *)
Definition training_pass (st : tstate) (batch : Batch * Labels)
    : tstate * list (op * Params) :=
  let '(images, labels) := batch in
  let p := params st in
  let images' := view_flat images in
  let output := forward p images' in
  let loss := criterion output labels in
  let g1 := zero_grad (grads st) in
  let g2 := backward loss g1 in
  let p' := step p g2 in
  let r := item loss in
  (mkTstate p' g2 (Radd (running_loss st) r),
   [(OView images, p); (OForward images', p); (OLoss, p); (OZeroGrad, p);
    (OBackward, p); (OStep, p'); (OItem r, p')]).

Fixpoint batch_loop (st : tstate) (batches : list (Batch * Labels))
    : tstate * list (op * Params) :=
  match batches with
  | [] => (st, [])
  | b :: bs =>
      let '(st1, l1) := training_pass st b in
      let '(st2, l2) := batch_loop st1 bs in
      (st2, l1 ++ l2)
  end.

(** One iteration of the outer loop: reset, inner loop, [else] clause. *)
Definition epoch (trainloader : loader) (e : nat) (st : tstate)
    : tstate * list (op * Params) :=
  let '(st', l) :=
    batch_loop (mkTstate (params st) (grads st) R0) (trainloader e) in
  (st', l ++ [(OPrint (Rdiv_nat (running_loss st') (length (trainloader e))),
               params st')]).

(** [for _ in range(epochs)], counting epochs from [e0]. *)
Fixpoint train_from (trainloader : loader) (e0 epochs : nat) (st : tstate)
    : tstate * list (op * Params) :=
  match epochs with
  | 0 => (st, [])
  | S k =>
      let '(st1, l1) := epoch trainloader e0 st in
      let '(st2, l2) := train_from trainloader (S e0) k st1 in
      (st2, l1 ++ l2)
  end.

Definition mnist_epochs : nat := 5.

Definition mnist_training_cell (trainloader : loader) (st : tstate)
    : tstate * list (op * Params) :=
  train_from trainloader 0 mnist_epochs st.

(** The ops of one training pass, given the batch and the loss value. *)
Definition pass_ops (batch : Batch * Labels) (r : Real) : list op :=
  [OView (fst batch); OForward (view_flat (fst batch)); OLoss; OZeroGrad;
   OBackward; OStep; OItem r].

(** Every logged statement other than [optimizer.step()] leaves the
    parameters as they were before it. *)
Fixpoint only_step_mutates (p : Params) (log : list (op * Params)) : Prop :=
  match log with
  | [] => True
  | (o, p') :: log' => (o <> OStep -> p' = p) /\ only_step_mutates p' log'
  end.

(** The parameters after the last logged statement. *)
Fixpoint params_after (p : Params) (log : list (op * Params)) : Params :=
  match log with
  | [] => p
  | (_, p') :: log' => params_after p' log'
  end.

(** The log of one epoch over [trainloader e]: one training pass per
    batch, in the loader's order, with loss values [rs], then the printed
    average [sum rs / len(trainloader)]. *)
Definition epoch_log_ok (trainloader : loader) (e : nat)
    (log : list (op * Params)) : Prop :=
  exists rs, length rs = length (trainloader e) /\
    map fst log =
      concat (zip_with pass_ops (trainloader e) rs)
      ++ [OPrint (Rdiv_nat (foldl Radd R0 rs) (length (trainloader e)))].

End Training.

(* ------------------------------------------------------------------ *)
(** ** What the notebooks write to disk *)

(** The statements of the two notebooks that touch the file system:
    a dataset constructor ([datasets.MNIST(root, download=..., ...)]),
    which with [download=True] downloads the dataset into a directory
    under [root] when it is not there yet, and [torch.save]. *)
Inductive fs_stmt :=
  | DatasetInit (name root : string) (download : bool)
  | TorchSave (v : pyval) (path : string).

Definition dataset_dir (name root : string) : string := root +:+ name.

Definition exec_fs_stmt (fs : filesystem) (s : fs_stmt) : filesystem :=
  match s with
  | DatasetInit name root download =>
      if download then
        match fs !! dataset_dir name root with
        | Some _ => fs
        | None => <[dataset_dir name root := DatasetFiles name]> fs
        end
      else fs
  | TorchSave v path => torch_save v path fs
  end.

(** The path a statement may write. *)
Definition fs_stmt_path (s : fs_stmt) : string :=
  match s with
  | DatasetInit name root _ => dataset_dir name root
  | TorchSave _ path => path
  end.

Definition run_fs (fs : filesystem) (prog : list fs_stmt) : filesystem :=
  foldl exec_fs_stmt fs prog.

(** "Training Neural Networks": [datasets.MNIST("~/.pytorch/MNIST_data/",
    download=True, train=True, ...)]. *)
Definition training_notebook_fs : list fs_stmt :=
  [DatasetInit "MNIST" "~/.pytorch/MNIST_data/" true].

(** "Saving and Loading Models": the FashionMNIST train and test sets,
    [torch.save(model.state_dict(), "checkpoint.pth")] with the trained
    model [trained], and [torch.save(checkpoint, "checkpoint.pth")] with the
    model [model] bound when the checkpoint cell runs. *)
Definition saving_notebook_fs (trained model : Network) : list fs_stmt :=
  [DatasetInit "FashionMNIST" "~/.pytorch/F_MNIST_data/" true;
   DatasetInit "FashionMNIST" "~/.pytorch/F_MNIST_data/" true;
   TorchSave (state_dict_value (state_dict trained)) "checkpoint.pth";
   TorchSave (checkpoint model) "checkpoint.pth"].

Definition notebooks_fs (trained model : Network) : list fs_stmt :=
  training_notebook_fs ++ saving_notebook_fs trained model.

(* ------------------------------------------------------------------ *)
(** ** Tensor objects and the statements of the cells that act on them *)

(** Tensors are objects: each parameter, each [.grad] and each tensor a
    cell binds to a variable lives at a location of the heap; statements
    that act in place write the object at its location. *)
Abbreviation loc := nat.

Record hstate := mkHstate {
  objs : gmap loc tensor;
  named_params : list (string * loc);  (* model.named_parameters() *)
  grad_of : gmap loc loc;              (* p.grad for the parameter at p *)
  vars : gmap string loc;              (* the cells' tensor variables *)
  next_loc : loc;                      (* the first free location *)
  files : filesystem
}.

#[global] Instance tensor_inhabited : Inhabited tensor := populate (mkTensor [] []).

Definition read (st : hstate) (l : loc) : tensor := objs st !!! l.

(** An in-place write to the object at [l]. *)
Definition set_obj (l : loc) (t : tensor) (st : hstate) : hstate :=
  mkHstate (<[l := t]> (objs st)) (named_params st) (grad_of st) (vars st)
           (next_loc st) (files st).

(** [x = <expression>]: a new tensor object, bound to [x]. *)
Definition alloc_var (x : string) (t : tensor) (st : hstate) : hstate :=
  mkHstate (<[next_loc st := t]> (objs st)) (named_params st) (grad_of st)
           (<[x := next_loc st]> (vars st)) (S (next_loc st)) (files st).

(** The parameter values, under their [state_dict] names. *)
Definition param_values (st : hstate) : list (string * tensor) :=
  map (fun '(k, p) => (k, read st p)) (named_params st).

Definition tensor_add (a b : tensor) : tensor :=
  mkTensor (shape a) (zip_with Z.add (data a) (data b)).

(** [loss.backward()] at one parameter, with gradient [gk]: a parameter
    without [.grad] gets a new gradient tensor; into an existing [.grad]
    the gradient is accumulated in place. *)
Definition accumulate_grad (gk : tensor) (p : loc) (st : hstate) : hstate :=
  match grad_of st !! p with
  | None =>
      mkHstate (<[next_loc st := gk]> (objs st)) (named_params st)
               (<[p := next_loc st]> (grad_of st)) (vars st)
               (S (next_loc st)) (files st)
  | Some gl => set_obj gl (tensor_add (read st gl) gk) st
  end.

(** [g k lv]: the gradient of the loss value [lv] with respect to the
    parameter named [k], as the autograd engine computes it. *)
Definition backward_params (g : string -> tensor -> tensor) (lv : tensor)
    (ps : list (string * loc)) (st : hstate) : hstate :=
  foldl (fun st' '(k, p) => accumulate_grad (g k lv) p st') st ps.

(** [optimizer.step()] at one parameter: with a [.grad], the parameter is
    updated in place entry by entry by the optimizer's rule [upd];
    without one it is skipped. *)
Definition step_param (upd : Z -> Z -> Z) (p : loc) (st : hstate) : hstate :=
  match grad_of st !! p with
  | None => st
  | Some gl =>
      set_obj p (mkTensor (shape (read st p))
                          (zip_with upd (data (read st p)) (data (read st gl)))) st
  end.

Definition step_params (upd : Z -> Z -> Z) (ps : list (string * loc))
    (st : hstate) : hstate :=
  foldl (fun st' '(_, p) => step_param upd p st') st ps.

(** [model.load_state_dict(sd)]: [param.copy_] into every parameter, as
    [load_param] decides; the copies are made before the call raises, so
    the state after the statement is the state after the copies. *)
Definition load_params (sd : list (string * tensor)) (ps : list (string * loc))
    (st : hstate) : hstate :=
  foldl (fun st' '(k, p) => set_obj p (fst (load_param sd k (read st' p))) st') st ps.

(** [x.resize_(shp)]: in place; entries beyond the old storage are
    uninitialised memory, here [fill]. *)
Definition resize (shp : list nat) (fill : list Z) (t : tensor) : tensor :=
  mkTensor shp (take (foldr Nat.mul 1 shp) (data t ++ fill)).

Inductive cell_stmt :=
  | SBatch (x y : string) (bx by' : tensor)   (* x, y = next(dataiter) *)
  | SResize (x : string) (shp : list nat) (fill : list Z)
                                              (* x.resize_(shp) *)
  | SForward (out inp : string) (f : list tensor -> tensor -> tensor)
                                              (* out = model(inp) *)
  | SLoss (out x y : string) (f : tensor -> tensor -> tensor)
                                              (* out = criterion(x, y) *)
  | SBackward (loss : string) (g : string -> tensor -> tensor)
                                              (* loss.backward() *)
  | SZeroGrad                                 (* optimizer.zero_grad() *)
  | SStep (upd : Z -> Z -> Z)                 (* optimizer.step() *)
  | SStateDictKeys                            (* print(model.state_dict().keys()) *)
  | SSave (path : string)                     (* torch.save(model.state_dict(), path) *)
  | SLoadStateDict (sd : list (string * tensor))
                                              (* model.load_state_dict(sd) *).

(** One statement; [None]: a [NameError] (an unbound variable). *)
Definition exec_stmt (st : hstate) (s : cell_stmt) : option hstate :=
  match s with
  | SBatch x y bx by' => Some (alloc_var y by' (alloc_var x bx st))
  | SResize x shp fill =>
      l ← vars st !! x; Some (set_obj l (resize shp fill (read st l)) st)
  | SForward out inp f =>
      l ← vars st !! inp;
      Some (alloc_var out (f (map snd (param_values st)) (read st l)) st)
  | SLoss out x y f =>
      lx ← vars st !! x; ly ← vars st !! y;
      Some (alloc_var out (f (read st lx) (read st ly)) st)
  | SBackward loss g =>
      l ← vars st !! loss; Some (backward_params g (read st l) (named_params st) st)
  | SZeroGrad =>
      (* set_to_none: every parameter's [.grad] becomes [None] *)
      Some (mkHstate (objs st) (named_params st) ∅ (vars st) (next_loc st) (files st))
  | SStep upd => Some (step_params upd (named_params st) st)
  | SStateDictKeys => Some st
  | SSave path =>
      Some (mkHstate (objs st) (named_params st) (grad_of st) (vars st) (next_loc st)
                     (torch_save (state_dict_value (param_values st)) path (files st)))
  | SLoadStateDict sd => Some (load_params sd (named_params st) st)
  end.

Fixpoint exec_stmts (st : hstate) (ss : list cell_stmt) : option hstate :=
  match ss with
  | [] => Some st
  | s :: ss' => st' ← exec_stmt st s; exec_stmts st' ss'
  end.

(** The layout the library keeps: parameters, gradients and the variables'
    tensors are allocated objects, and no gradient tensor and no variable
    is a parameter. *)
Definition heap_ok (st : hstate) : Prop :=
  (forall k p, (k, p) ∈ named_params st -> p < next_loc st) /\
  (forall p gl, grad_of st !! p = Some gl ->
     gl < next_loc st /\ gl ∉ map snd (named_params st)) /\
  (forall x l, vars st !! x = Some l ->
     l < next_loc st /\ l ∉ map snd (named_params st)).

(** The statements that are neither [optimizer.step()] nor
    [model.load_state_dict]. *)
Definition keeps_params (s : cell_stmt) : bool :=
  match s with SStep _ | SLoadStateDict _ => false | _ => true end.

(** The backward-pass cell of the training notebook, its prints left out
    (they only read):
<<
images, labels = next(dataiter)
images.resize_(64, 784)
optimizer.zero_grad()
output = model(images)
loss = criterion(output, labels)
loss.backward()
>> *)
Definition backward_cell (images labels : tensor) (fill : list Z)
    (model : list tensor -> tensor -> tensor)
    (criterion : tensor -> tensor -> tensor)
    (g : string -> tensor -> tensor) : list cell_stmt :=
  [SBatch "images" "labels" images labels;
   SResize "images" [64; 784] fill;
   SZeroGrad;
   SForward "output" "images" model;
   SLoss "loss" "output" "labels" criterion;
   SBackward "loss" g].

(* ------------------------------------------------------------------ *)
(** ** Predicates used in the proofs *)

Fixpoint no_dot (s : string) : Prop :=
  match s with
  | EmptyString => True
  | String c s' => c <> "."%char /\ no_dot s'
  end.

(** The names of [hidden_state_dict j ls]. *)
Fixpoint hidden_keys (j len : nat) : list string :=
  match len with
  | 0 => []
  | S len' =>
      (hidden_prefix j +:+ "weight") :: (hidden_prefix j +:+ "bias")
        :: hidden_keys (S j) len'
  end.

(** [l'] has the layer sizes and parameter shapes of [l]. *)
Definition same_linear (l l' : Linear) : Prop :=
  in_features l' = in_features l /\ out_features l' = out_features l /\
  shape (weight l') = shape (weight l) /\ shape (bias l') = shape (bias l).

Definition same_network (n n' : Network) : Prop :=
  Forall2 same_linear (hidden_layers n) (hidden_layers n') /\
  same_linear (output n) (output n') /\ dropout n' = dropout n.

Inductive exn :=
  | IndexError
  | RuntimeError (errs : list load_error).

(** A [load_state_dict] call as a Python statement: it raises when errors
    were collected. *)
Definition raise_on_errors (r : Network * list load_error) : Network + exn :=
  if decide (snd r = []) then inl (fst r) else inr (RuntimeError (snd r)).

(** The notebook's cell
<<
model = fc_model.Network(784, 10, [400, 200, 100])
model.load_state_dict(state_dict)
>>
    (no [try]: an exception ends the cell). *)
Definition try_this_cell (sd : list (string * tensor)) (init : initialiser)
    : Network + exn :=
  match fc_model_Network 784 10 [400; 200; 100] init with
  | None => inr IndexError
  | Some model => raise_on_errors (load_state_dict model sd)
  end.

(** The condition the claim states for a successful load: every tensor of
    the state dict has the shape of the model's parameter of its name. *)
Definition shapes_match (n : Network) (sd : list (string * tensor)) : bool :=
  forallb (fun '(k, t) =>
             match dict_get k (state_dict n) with
             | Some cur => bool_decide (shape t = shape cur)
             | None => false
             end) sd.

(** Fixed initial values for concrete runs. *)
Definition demo_init : initialiser := fun k _ => [Z.of_nat k].

(** A small network for concrete runs: one [1 -> 1] output layer. *)
Definition demo_net (init : initialiser) (k : nat) : Network :=
  mkNetwork [] (nn_Linear init k 1 1) (1, 2).

(* ------------------------------------------------------------------ *)
(** ** The [nn.Sequential] models of the first notebook, by shape *)

(** The modules the notebook stacks in [nn.Sequential]. *)
Inductive module :=
  | ModLinear (l : Linear)
  | ModReLU
  | ModLogSoftmax (dim : nat).

(** The shape of a module's output on an input of shape [shp] ([None]:
    the call raises).  [nn.Linear] acts on the last dimension, which must
    be [in_features]; [nn.ReLU] keeps the shape; [nn.LogSoftmax(dim)]
    needs the dimension [dim]. *)
Definition module_shape (m : module) (shp : list nat) : option (list nat) :=
  match m with
  | ModLinear l =>
      match last shp with
      | Some d =>
          if decide (d = in_features l)
          then Some (removelast shp ++ [out_features l]) else None
      | None => None
      end
  | ModReLU => Some shp
  | ModLogSoftmax dim => if decide (dim < length shp) then Some shp else None
  end.

(** [nn.Sequential(m1, ..., mk)] applies its modules in order. *)
Fixpoint sequential_shape (ms : list module) (shp : list nat)
    : option (list nat) :=
  match ms with
  | [] => Some shp
  | m :: ms' => module_shape m shp ≫= sequential_shape ms'
  end.

(** [t.view(d0, -1)] on a tensor of shape [shp]: the [-1] dimension is
    [numel / d0]; the call raises when [d0] is [0] or does not divide the
    number of elements. *)
Definition view_shape (shp : list nat) (d0 : nat) : option (list nat) :=
  let numel := foldr Nat.mul 1 shp in
  if decide (d0 = 0) then None
  else if decide (numel mod d0 = 0) then Some [d0; numel / d0] else None.

(** [images = images.view(images.shape[0], -1)] *)
Definition flatten_images (shp : list nat) : option (list nat) :=
  match shp with
  | [] => None
  | b :: _ => view_shape shp b
  end.

(** [nn.Sequential(nn.Linear(784, 128), nn.ReLU(), nn.Linear(128, 64),
    nn.ReLU(), nn.Linear(64, 10))], the notebook's first model. *)
Definition logits_model (init : initialiser) : list module :=
  [ModLinear (nn_Linear init 0 784 128); ModReLU;
   ModLinear (nn_Linear init 1 128 64); ModReLU;
   ModLinear (nn_Linear init 2 64 10)].

(** The later models of the notebook end in [nn.LogSoftmax(dim=1)]. *)
Definition logsoftmax_model (init : initialiser) : list module :=
  logits_model init ++ [ModLogSoftmax 1].

(** A batch of [b] MNIST images as the loader yields it after
    [transforms.ToTensor()]: [b x 1 x 28 x 28]. *)
Definition mnist_batch_shape (b : nat) : list nat := [b; 1; 28; 28].

(* ------------------------------------------------------------------ *)
(** ** [torch.utils.data.DataLoader(dataset, batch_size, shuffle=True)] *)

(** Consecutive batches of [bs] samples, the last one possibly shorter
    ([drop_last=False]); [fuel] bounds the number of batches. *)
Fixpoint batches_go {A} (fuel bs : nat) (l : list A) : list (list A) :=
  match fuel, l with
  | 0, _ | _, [] => []
  | S fuel', _ :: _ => take bs l :: batches_go fuel' bs (drop bs l)
  end.

Definition batches {A} (bs : nat) (l : list A) : list (list A) :=
  batches_go (length l) bs l.

(** The loader's batches in epoch [e]: [sampler e] is the order in which
    the random sampler draws the sample indices in that epoch (a fresh
    [torch.randperm(len(dataset))] every epoch); the collation of a batch
    into tensors is left out. *)
Definition data_loader {A} `{Inhabited A} (dataset : list A)
    (batch_size : nat) (sampler : nat -> list nat) (e : nat)
    : list (list A) :=
  batches batch_size (map (fun i => dataset !!! i) (sampler e)).

(** [DataLoader(trainset, batch_size=64, shuffle=True)] *)
Definition trainloader_batches {A} `{Inhabited A} (dataset : list A)
    (sampler : nat -> list nat) : nat -> list (list A) :=
  data_loader dataset 64 sampler.

(** The library on integers, for concrete runs of the training loop. *)
Definition demo_lib : TrainLib := {|
  Batch := Z; Labels := Z; Params := Z; Grads := Z;
  Out := Z; Loss := Z; Real := Z;
  view_flat := fun x => x;
  forward := Z.add;
  criterion := Z.sub;
  zero_grad := fun _ => 0%Z;
  backward := Z.add;
  step := Z.sub;
  item := fun x => x;
  R0 := 0%Z;
  Radd := Z.add;
  Rdiv_nat := fun r n => (r / Z.of_nat n)%Z
|}.

(** The cells of "Saving and Loading Models" from
    [torch.save(model.state_dict(), "checkpoint.pth")] to
    [model = load_checkpoint("checkpoint.pth")], run one by one as the
    saved outputs show, with [trained] the trained model.  The "Try this"
    cell binds [model] to a fresh [Network(784, 10, [400, 200, 100])]
    (initial values [init_try]) and [load_state_dict] copies into it the
    tensors of matching shape before it raises; the next cells use that
    [model].  The result is what [load_checkpoint] returns ([init_load]:
    the initial values of the network it builds). *)
Definition saving_notebook_run (trained : Network)
    (init_try init_load : initialiser) (fs : filesystem) : option Network :=
  let fs1 := torch_save (state_dict_value (state_dict trained))
                        "checkpoint.pth" fs in
  sdv ← torch_load "checkpoint.pth" fs1;
  sd ← as_dict sdv ≫= as_tensor_items;
  let model := fst (load_state_dict trained sd) in
  model ← fc_model_Network 784 10 [400; 200; 100] init_try;
  let model := fst (load_state_dict model sd) in
  let fs2 := torch_save (checkpoint model) "checkpoint.pth" fs1 in
  load_checkpoint "checkpoint.pth" fs2 init_load.


(** The entry a parameter [(k, cur)] gets from [load_state_dict(sd)]. *)
Definition loaded_entry (sd : list (string * tensor)) (kc : string * tensor)
    : string * tensor :=
  (kc.1, fst (load_param sd kc.1 kc.2)).

(* ================================================================== *)
(** * Proofs *)

(* ------------------------------------------------------------------ *)
(** ** Parameter names *)


Lemma pretty_N_go_no_dot x s : no_dot s -> no_dot (pretty_N_go x s).
Proof.
  revert s. induction (N.lt_wf_0 x) as [x _ IH]; intros s Hs.
  destruct (decide (x = 0%N)) as [->|Hx]; [by rewrite pretty_N_go_0|].
  rewrite pretty_N_go_step by lia. apply IH; [apply N.div_lt; lia|].
  split; [|done]. unfold pretty_N_char. by repeat case_match.
Qed.

Lemma pretty_no_dot (k : nat) : no_dot (pretty k).
Proof.
  unfold pretty, pretty_nat. unfold pretty, pretty_N.
  case_decide; [simpl; split; [discriminate|done]|].
  by apply pretty_N_go_no_dot.
Qed.

Lemma string_app_nil (s : string) : "" +:+ s = s.
Proof. reflexivity. Qed.

Lemma string_app_cons c (a s : string) : String c a +:+ s = String c (a +:+ s).
Proof. reflexivity. Qed.

Lemma string_app_assoc (a b c : string) : (a +:+ b) +:+ c = a +:+ (b +:+ c).
Proof.
  induction a as [|x a IH]; [done|]. by rewrite !string_app_cons, IH.
Qed.

Lemma dot_split a a' b b' :
  no_dot a -> no_dot a' ->
  a +:+ String "." b = a' +:+ String "." b' -> a = a' /\ b = b'.
Proof.
  revert a'. induction a as [|c a IH]; intros [|c' a'] Ha Ha' H;
    rewrite ?string_app_cons, ?string_app_nil in H; simpl in *.
  - by injection H.
  - injection H as Hc _. naive_solver.
  - injection H as Hc _. naive_solver.
  - injection H as -> H. destruct (IH a') as [-> ->]; naive_solver.
Qed.

Lemma hidden_key_eq k s :
  hidden_prefix k +:+ s = "hidden_layers." +:+ pretty k +:+ String "." s.
Proof. unfold hidden_prefix. by rewrite !string_app_assoc. Qed.

Lemma hidden_key_inj k k' s s' :
  hidden_prefix k +:+ s = hidden_prefix k' +:+ s' -> k = k' /\ s = s'.
Proof.
  rewrite !hidden_key_eq. intros H.
  apply (inj (String.append "hidden_layers.")) in H.
  apply dot_split in H as [Hk ->]; [|apply pretty_no_dot..].
  split; [by apply (inj pretty)|done].
Qed.

Lemma hidden_key_not_output k s s' :
  hidden_prefix k +:+ s <> "output." +:+ s'.
Proof. rewrite hidden_key_eq. intros H. discriminate H. Qed.

(* ------------------------------------------------------------------ *)
(** ** [state_dict] lookups *)

Lemma dict_get_app {A} k (d1 d2 : list (string * A)) :
  dict_get k (d1 ++ d2) =
  match dict_get k d1 with Some v => Some v | None => dict_get k d2 end.
Proof.
  induction d1 as [|[k' v] d1 IH]; simpl; [done|]. by case_decide.
Qed.

Lemma dict_get_hidden_output j ls s :
  dict_get ("output." +:+ s) (hidden_state_dict j ls) = None.
Proof.
  revert j. induction ls as [|l ls IH]; intros j; simpl; [done|].
  repeat (case_decide as Heq;
          [exfalso; by eapply hidden_key_not_output; symmetry|]).
  apply IH.
Qed.

Lemma dict_get_hidden j ls k l :
  ls !! k = Some l ->
  dict_get (hidden_prefix (j + k) +:+ "weight") (hidden_state_dict j ls)
    = Some (weight l) /\
  dict_get (hidden_prefix (j + k) +:+ "bias") (hidden_state_dict j ls)
    = Some (bias l).
Proof.
  revert j k. induction ls as [|l0 ls IH]; intros j k Hk; [done|].
  simpl. destruct k as [|k]; simpl in Hk.
  - injection Hk as <-. rewrite Nat.add_0_r.
    split; [by rewrite decide_True|].
    rewrite decide_False; [by rewrite decide_True|].
    intros Heq. apply hidden_key_inj in Heq as [_ ?]. done.
  - rewrite !decide_False;
      try (intros Heq; apply hidden_key_inj in Heq as [? _]; lia).
    replace (j + S k) with (S j + k) by lia. by apply IH.
Qed.

Lemma state_dict_hidden n k l :
  hidden_layers n !! k = Some l ->
  dict_get (hidden_prefix k +:+ "weight") (state_dict n) = Some (weight l) /\
  dict_get (hidden_prefix k +:+ "bias") (state_dict n) = Some (bias l).
Proof.
  intros Hk. unfold state_dict. rewrite !dict_get_app.
  destruct (dict_get_hidden 0 (hidden_layers n) k l Hk) as [H1 H2].
  simpl in H1, H2. by rewrite H1, H2.
Qed.

Lemma state_dict_output n :
  dict_get ("output." +:+ "weight") (state_dict n) = Some (weight (output n)) /\
  dict_get ("output." +:+ "bias") (state_dict n) = Some (bias (output n)).
Proof.
  unfold state_dict. rewrite !dict_get_app, !dict_get_hidden_output. by simpl.
Qed.


Lemma keys_hidden_state_dict j ls :
  keys (hidden_state_dict j ls) = hidden_keys j (length ls).
Proof.
  revert j. induction ls as [|l ls IH]; intros j; simpl; [done|].
  by rewrite IH.
Qed.

Lemma keys_state_dict n :
  keys (state_dict n) =
  hidden_keys 0 (length (hidden_layers n)) ++ ["output.weight"; "output.bias"].
Proof.
  unfold state_dict, keys. rewrite map_app. fold (keys (hidden_state_dict 0 (hidden_layers n))).
  by rewrite keys_hidden_state_dict.
Qed.

(* ------------------------------------------------------------------ *)
(** ** Loading into a network of the same architecture *)


Lemma load_param_found sd key cur t :
  dict_get key sd = Some t -> shape cur = shape t ->
  load_param sd key cur = (t, []).
Proof.
  intros Hget Hshape. unfold load_param. rewrite Hget, decide_True by done.
  destruct t. simpl in *. by subst.
Qed.

Lemma load_linear_found sd prefix l l' :
  dict_get (prefix +:+ "weight") sd = Some (weight l) ->
  dict_get (prefix +:+ "bias") sd = Some (bias l) ->
  same_linear l l' ->
  load_linear sd prefix l' = (l, []).
Proof.
  intros Hw Hb (Hi & Ho & Hsw & Hsb). unfold load_linear.
  rewrite (load_param_found _ _ _ (weight l)), (load_param_found _ _ _ (bias l))
    by done.
  destruct l. simpl in *. by subst.
Qed.

Lemma load_hidden_found sd j ls ls' :
  Forall2 same_linear ls ls' ->
  (forall k l, ls !! k = Some l ->
     dict_get (hidden_prefix (j + k) +:+ "weight") sd = Some (weight l) /\
     dict_get (hidden_prefix (j + k) +:+ "bias") sd = Some (bias l)) ->
  load_hidden sd j ls' = (ls, []).
Proof.
  intros Hsame. revert j.
  induction Hsame as [|l l' ls ls' Hl _ IH]; intros j Hget; [done|].
  simpl. destruct (Hget 0 l) as [Hw Hb]; [done|].
  rewrite Nat.add_0_r in Hw, Hb.
  rewrite (load_linear_found _ _ l) by done.
  rewrite IH; [done|]. intros k l0 Hk.
  replace (S j + k) with (j + S k) by lia. by apply Hget.
Qed.

Lemma filter_not_in_nil (L l : list string) :
  (forall x, x ∈ l -> x ∈ L) -> filter (fun k => k ∉ L) l = [].
Proof.
  induction l as [|x l IH]; intros Hin; [done|].
  rewrite filter_cons, decide_False.
  - apply IH. intros y Hy. apply Hin. by right.
  - intros Hx. apply Hx, Hin. by left.
Qed.

Lemma load_state_dict_same n n' :
  same_network n n' -> load_state_dict n' (state_dict n) = (n, []).
Proof.
  intros (Hh & Ho & Hd). unfold load_state_dict.
  rewrite (load_hidden_found _ 0 (hidden_layers n)); [|done|].
  2:{ intros k l Hk. by apply state_dict_hidden. }
  destruct (state_dict_output n) as [Hw Hb].
  rewrite (load_linear_found _ _ (output n)) by done.
  rewrite filter_not_in_nil.
  - destruct n. simpl in *. by subst.
  - intros x. rewrite !keys_state_dict. by rewrite (Forall2_length _ _ _ Hh).
Qed.

(* ------------------------------------------------------------------ *)
(** ** Facts about [fc_model_Network] *)

Lemma hidden_from_same init init' k prev hs :
  Forall2 same_linear (hidden_from init k prev hs) (hidden_from init' k prev hs).
Proof.
  revert k prev. induction hs as [|h hs IH]; intros k prev; simpl; constructor.
  - repeat split.
  - apply IH.
Qed.

Lemma hidden_from_out_features init k prev hs :
  map out_features (hidden_from init k prev hs) = hs.
Proof.
  revert k prev. induction hs as [|h hs IH]; intros k prev; simpl; [done|].
  by rewrite IH.
Qed.

Lemma fc_model_Network_reinit i o hs init init' n :
  fc_model_Network i o hs init = Some n ->
  exists n', fc_model_Network i o hs init' = Some n' /\ same_network n n'.
Proof.
  destruct hs as [|h hs]; [done|]. unfold fc_model_Network. intros [= <-].
  eexists; split; [done|]. split; [exact (hidden_from_same init init' 0 i (h :: hs))|].
  split; [repeat split|done].
Qed.

Lemma as_int_list_map (ls : list Linear) :
  as_int_list (map (fun each => PyInt (out_features each)) ls)
  = Some (map out_features ls).
Proof. induction ls as [|l ls IH]; simpl; [done|]. by rewrite IH. Qed.

Lemma as_tensor_items_value sd :
  as_tensor_items (map (fun '(k, t) => (k, PyTensor t)) sd) = Some sd.
Proof.
  induction sd as [|[k t] sd IH]; simpl; [done|]. by rewrite IH.
Qed.

(* ------------------------------------------------------------------ *)
(** ** Claims about the checkpoint *)

(** C1: a checkpoint dict saved for a network [fc_model.Network(i, o, hs)]
    with [input_size = i], [output_size = o], the hidden layers'
    [out_features] and its [state_dict], read back by [load_checkpoint],
    gives a network equal to the saved one: the same layers of the same
    shapes holding the same parameter tensors, whatever values the freshly
    built network was initialised with. *)
Theorem load_checkpoint_roundtrip i o hs init init' n path fs :
  fc_model_Network i o hs init = Some n ->
  load_checkpoint path (torch_save (make_checkpoint i o n) path fs) init'
  = Some n.
Proof.
  intros Hn.
  destruct (fc_model_Network_reinit i o hs init init' n Hn) as (n' & Hn' & Hsame).
  assert (Hout : map out_features (hidden_layers n) = hs).
  { destruct hs as [|h hs]; [done|]. injection Hn as <-.
    apply (hidden_from_out_features init 0 i (h :: hs)). }
  unfold load_checkpoint, torch_load, torch_save.
  rewrite lookup_insert_eq. simpl.
  rewrite as_int_list_map, Hout. simpl.
  unfold state_dict_value. rewrite as_tensor_items_value. simpl.
  rewrite Hn'. simpl. by rewrite load_state_dict_same.
Qed.

Lemma hidden_keys_seq j len :
  hidden_keys j len =
  concat (map (fun k => ["hidden_layers." +:+ pretty k +:+ ".weight";
                         "hidden_layers." +:+ pretty k +:+ ".bias"])
              (seq j len)).
Proof.
  revert j. induction len as [|len IH]; intros j; simpl; [done|].
  by rewrite !hidden_key_eq, IH.
Qed.

(** C3: the [state_dict] of a network names its parameters
    [hidden_layers.N.weight] and [hidden_layers.N.bias] for each hidden
    layer index [N], in order, then [output.weight] and [output.bias]; the
    notebook's checkpoint dict has exactly the keys [input_size],
    [output_size], [hidden_layers] and [state_dict], [hidden_layers]
    holding the hidden layers' [out_features] in order and [state_dict]
    the network's state dict. *)
Theorem checkpoint_keys (n : Network) :
  keys (state_dict n) =
    concat (map (fun k => ["hidden_layers." +:+ pretty k +:+ ".weight";
                           "hidden_layers." +:+ pretty k +:+ ".bias"])
                (seq 0 (length (hidden_layers n))))
    ++ ["output.weight"; "output.bias"] /\
  exists d, checkpoint n = PyDict d /\
    keys d = ["input_size"; "output_size"; "hidden_layers"; "state_dict"] /\
    dict_get "hidden_layers" d =
      Some (PyList (map (fun each => PyInt (out_features each))
                        (hidden_layers n))) /\
    dict_get "state_dict" d = Some (state_dict_value (state_dict n)).
Proof.
  split.
  - by rewrite keys_state_dict, hidden_keys_seq.
  - eexists; split; [reflexivity|]. by repeat split.
Qed.

(* ------------------------------------------------------------------ *)
(** ** The layers of [fc_model.Network] *)

Lemma hidden_from_sizes init k prev hs :
  map (fun l => (in_features l, out_features l)) (hidden_from init k prev hs)
  = zip (prev :: hs) hs.
Proof.
  revert k prev. induction hs as [|h hs IH]; intros k prev; simpl; [done|].
  by rewrite IH.
Qed.

Lemma hidden_from_shapes init k prev hs :
  Forall (fun l => shape (weight l) = [out_features l; in_features l] /\
                   shape (bias l) = [out_features l])
         (hidden_from init k prev hs).
Proof.
  revert k prev. induction hs as [|h hs IH]; intros k prev; simpl;
    constructor; [done|apply IH].
Qed.

(** C6: for a non-empty width list [h :: hs], [fc_model.Network(i, o,
    h :: hs)] has hidden linear layers of sizes [i -> h], then one per pair
    of consecutive widths, an output linear layer from the last width to
    [o], every weight of shape [out x in] and bias of shape [out], and a
    dropout module ([p = 0.5]). *)
Theorem fc_model_Network_layers i o h hs init :
  exists n, fc_model_Network i o (h :: hs) init = Some n /\
    map (fun l => (in_features l, out_features l)) (hidden_layers n)
      = zip (i :: h :: hs) (h :: hs) /\
    (in_features (output n), out_features (output n))
      = (List.last (h :: hs) 0, o) /\
    Forall (fun l => shape (weight l) = [out_features l; in_features l] /\
                     shape (bias l) = [out_features l])
           (hidden_layers n ++ [output n]) /\
    dropout n = (1, 2).
Proof.
  eexists; split; [reflexivity|]. simpl hidden_layers. simpl output.
  split; [apply (hidden_from_sizes init 0 i (h :: hs))|].
  split; [done|]. split; [|done].
  apply Forall_app; split.
  - apply (hidden_from_shapes init 0 i (h :: hs)).
  - by constructor.
Qed.

Lemma load_checkpoint_roundtrip_witness :
  exists n, fc_model_Network 3 2 [2; 2] demo_init = Some n /\
    load_checkpoint "checkpoint.pth"
      (torch_save (make_checkpoint 3 2 n) "checkpoint.pth" ∅) (fun _ _ => [])
    = Some n.
Proof.
  eexists; split; [reflexivity|].
  apply (load_checkpoint_roundtrip 3 2 [2; 2] demo_init). reflexivity.
Defined.

(* ------------------------------------------------------------------ *)
(** ** When [load_state_dict] raises *)

Lemma load_param_errors_nil sd key cur :
  snd (load_param sd key cur) = [] <->
  exists t, dict_get key sd = Some t /\ shape t = shape cur.
Proof.
  unfold load_param. destruct (dict_get key sd) as [t|]; simpl.
  - case_decide; simpl; naive_solver.
  - split; [done|]. by intros (? & ? & _).
Qed.

Lemma load_linear_errors sd prefix l :
  snd (load_linear sd prefix l) =
  concat (map (fun '(k, cur) => snd (load_param sd k cur))
              (linear_state_dict prefix l)).
Proof.
  unfold load_linear, linear_state_dict. cbn [map concat].
  destruct (load_param sd (prefix +:+ "weight") (weight l)) as [w e1].
  destruct (load_param sd (prefix +:+ "bias") (bias l)) as [b e2].
  simpl. by rewrite app_nil_r.
Qed.

Lemma load_hidden_errors sd j ls :
  snd (load_hidden sd j ls) =
  concat (map (fun '(k, cur) => snd (load_param sd k cur))
              (hidden_state_dict j ls)).
Proof.
  revert j. induction ls as [|l ls IH]; intros j; [done|]. simpl.
  pose proof (load_linear_errors sd (hidden_prefix j) l) as Hl.
  destruct (load_linear sd (hidden_prefix j) l) as [l' e].
  specialize (IH (S j)).
  destruct (load_hidden sd (S j) ls) as [ls'' e']. simpl in *.
  rewrite Hl, IH, app_nil_r. by rewrite <-app_assoc.
Qed.

Lemma load_state_dict_errors n sd :
  snd (load_state_dict n sd) =
  concat (map (fun '(k, cur) => snd (load_param sd k cur)) (state_dict n))
  ++ map UnexpectedKey (filter (fun k => k ∉ keys (state_dict n)) (keys sd)).
Proof.
  unfold load_state_dict.
  pose proof (load_hidden_errors sd 0 (hidden_layers n)) as Hh.
  pose proof (load_linear_errors sd "output." (output n)) as Ho.
  destruct (load_hidden sd 0 (hidden_layers n)) as [hs eh].
  destruct (load_linear sd "output." (output n)) as [o eo].
  cbn [snd fst] in Hh, Ho |- *. rewrite Hh, Ho.
  unfold state_dict. rewrite map_app, concat_app. by rewrite app_assoc.
Qed.

Lemma concat_map_nil {A B} (f : A -> list B) (l : list A) :
  concat (map f l) = [] <-> forall x, x ∈ l -> f x = [].
Proof.
  induction l as [|x l IH]; simpl.
  - split; [|done]. intros _ y Hy. by apply elem_of_nil in Hy.
  - rewrite app_nil, IH. setoid_rewrite elem_of_cons. naive_solver.
Qed.

Lemma filter_not_in_nil_iff (L l : list string) :
  filter (fun k => k ∉ L) l = [] <-> forall x, x ∈ l -> x ∈ L.
Proof.
  split; [|apply filter_not_in_nil].
  induction l as [|x l IH]; intros Hf y Hy;
    [by apply elem_of_nil in Hy|].
  rewrite filter_cons in Hf. case_decide as Hx; [done|].
  apply elem_of_cons in Hy as [->|Hy].
  - destruct (decide (x ∈ L)); [done|]. by exfalso.
  - by apply IH.
Qed.

Lemma map_nil_iff {A B} (f : A -> B) (l : list A) : map f l = [] <-> l = [].
Proof. destruct l; simpl; split; done. Qed.

Lemma load_state_dict_ok_iff n sd :
  snd (load_state_dict n sd) = [] <->
  (forall k cur, (k, cur) ∈ state_dict n ->
     exists t, dict_get k sd = Some t /\ shape t = shape cur) /\
  (forall k, k ∈ keys sd -> k ∈ keys (state_dict n)).
Proof.
  rewrite load_state_dict_errors, app_nil, concat_map_nil, map_nil_iff,
    filter_not_in_nil_iff.
  apply and_iff_compat_r. split.
  - intros H k cur Hin. apply load_param_errors_nil. by apply (H (k, cur)).
  - intros H [k cur] Hin. apply load_param_errors_nil. by apply H.
Qed.

Lemma dict_get_elem {A} k (v : A) d : dict_get k d = Some v -> (k, v) ∈ d.
Proof.
  induction d as [|[k' v'] d IH]; simpl; [done|].
  case_decide; intros Hget; rewrite elem_of_cons.
  - injection Hget as <-. subst. by left.
  - right. by apply IH.
Qed.

Lemma elem_keys {A} k (v : A) d : (k, v) ∈ d -> k ∈ keys d.
Proof.
  induction d as [|[k' v'] d IH]; [by rewrite elem_of_nil|].
  unfold keys; simpl; fold (keys d). rewrite !elem_of_cons.
  intros [[= -> ->]|Hin]; [by left|right; by apply IH].
Qed.

Lemma hidden_keys_elem j len key :
  key ∈ hidden_keys j len ->
  exists k s, j <= k < j + len /\ key = hidden_prefix k +:+ s.
Proof.
  revert j. induction len as [|len IH]; intros j Hin; simpl in Hin.
  - by apply elem_of_nil in Hin.
  - rewrite !elem_of_cons in Hin. destruct Hin as [->|[->|Hin]].
    + exists j, "weight". split; [lia|done].
    + exists j, "bias". split; [lia|done].
    + destruct (IH (S j) Hin) as (k & s & Hk & ->). exists k, s. split; [lia|done].
Qed.

Lemma hidden_key_in_state_dict n k s :
  hidden_prefix k +:+ s ∈ keys (state_dict n) -> k < length (hidden_layers n).
Proof.
  rewrite keys_state_dict, elem_of_app. intros [Hin|Hin].
  - apply hidden_keys_elem in Hin as (k' & s' & Hk' & Heq).
    apply hidden_key_inj in Heq as [-> _]. lia.
  - rewrite !elem_of_cons in Hin. exfalso.
    destruct Hin as [Heq|[Heq|Hin]]; [..|by apply elem_of_nil in Hin].
    + exact (hidden_key_not_output k s "weight" Heq).
    + exact (hidden_key_not_output k s "bias" Heq).
Qed.

Lemma map_eq_lookup {A B} (f : A -> B) (ls ls' : list A) :
  length ls = length ls' ->
  (forall k l l', ls !! k = Some l -> ls' !! k = Some l' -> f l = f l') ->
  map f ls = map f ls'.
Proof.
  revert ls'. induction ls as [|x ls IH]; intros [|x' ls'] Hlen Hf;
    simpl in *; try done.
  f_equal; [by apply (Hf 0)|]. apply IH; [lia|].
  intros k l l' ??. by apply (Hf (S k)).
Qed.

Lemma fc_model_Network_hidden i o hs init n :
  fc_model_Network i o hs init = Some n ->
  map out_features (hidden_layers n) = hs /\
  Forall (fun l => shape (weight l) = [out_features l; in_features l] /\
                   shape (bias l) = [out_features l]) (hidden_layers n).
Proof.
  destruct hs as [|h hs]; [done|]. unfold fc_model_Network. intros [= <-].
  split; [apply (hidden_from_out_features init 0 i (h :: hs))|].
  apply (hidden_from_shapes init 0 i (h :: hs)).
Qed.

(** With all errors absent, the hidden layers of the checkpoint's network
    and of the target network have the same widths. *)
Lemma load_ok_same_widths n n' :
  Forall (fun l => shape (weight l) = [out_features l; in_features l])
         (hidden_layers n) ->
  Forall (fun l => shape (weight l) = [out_features l; in_features l])
         (hidden_layers n') ->
  snd (load_state_dict n (state_dict n')) = [] ->
  map out_features (hidden_layers n) = map out_features (hidden_layers n').
Proof.
  intros Hs Hs' Herr. apply load_state_dict_ok_iff in Herr as [Hall Hkeys].
  assert (Hfwd : forall k l, hidden_layers n !! k = Some l ->
            exists l', hidden_layers n' !! k = Some l' /\
                       out_features l = out_features l').
  { intros k l Hk. destruct (state_dict_hidden n k l Hk) as [Hw _].
    destruct (Hall _ _ (dict_get_elem _ _ _ Hw)) as (t & Ht & Hshape).
    pose proof (elem_keys _ _ _ (dict_get_elem _ _ _ Ht)) as Hkey.
    apply hidden_key_in_state_dict, lookup_lt_is_Some_2 in Hkey as [l' Hk'].
    exists l'. split; [done|].
    destruct (state_dict_hidden n' k l' Hk') as [Hw' _].
    rewrite Ht in Hw'. injection Hw' as ->.
    rewrite (Forall_lookup_1 _ _ _ _ Hs Hk),
            (Forall_lookup_1 _ _ _ _ Hs' Hk') in Hshape.
    by injection Hshape. }
  assert (Hbwd : forall k l', hidden_layers n' !! k = Some l' ->
            k < length (hidden_layers n)).
  { intros k l' Hk'. destruct (state_dict_hidden n' k l' Hk') as [Hw' _].
    apply hidden_key_in_state_dict with "weight". apply Hkeys.
    apply (elem_keys _ (weight l')). by apply dict_get_elem. }
  apply map_eq_lookup.
  - destruct (Nat.lt_trichotomy (length (hidden_layers n))
                                (length (hidden_layers n'))) as [Hlt|[?|Hlt]];
      [|done|].
    + destruct (lookup_lt_is_Some_2 _ _ Hlt) as [l' Hk'].
      specialize (Hbwd _ _ Hk'). lia.
    + destruct (lookup_lt_is_Some_2 _ _ Hlt) as [l Hk].
      destruct (Hfwd _ _ Hk) as (l' & Hk' & _).
      apply lookup_lt_Some in Hk'. lia.
  - intros k l l' Hk Hk'. destruct (Hfwd _ _ Hk) as (l'' & Hk'' & Hout).
    rewrite Hk' in Hk''. by injection Hk'' as ->.
Qed.

(** C2 (as the claim states it, refuted): "every tensor of the checkpoint
    has the shape of the model's parameter of its name" does not make
    [load_state_dict] succeed.  A checkpoint of [Network(2, 1, [1, 1])]
    loaded into [Network(2, 1, [1, 1, 1])] passes that test, yet the
    parameters of the third hidden layer are missing keys and the call
    raises. *)
Lemma load_state_dict_shapes_counterexample :
  ~ (forall n sd, snd (load_state_dict n sd) = [] <-> shapes_match n sd = true).
Proof.
  intros H.
  destruct (H (mkNetwork (hidden_from demo_init 0 2 [1; 1; 1])
                         (nn_Linear demo_init 3 1 1) (1, 2))
              (state_dict (mkNetwork (hidden_from demo_init 0 2 [1; 1])
                                     (nn_Linear demo_init 2 1 1) (1, 2))))
    as [_ Hok].
  specialize (Hok ltac:(vm_compute; reflexivity)).
  vm_compute in Hok. discriminate Hok.
Qed.

(** C2 (amended): [load_state_dict] collects no error, and so does not
    raise, exactly when every parameter of the model finds a tensor of its
    shape under its name and the state dict has no other key.  Between
    networks built with different hidden widths it raises a
    [RuntimeError]; the notebook's cell that loads the trained
    [[512, 256, 128]] state dict into [Network(784, 10, [400, 200, 100])]
    has no handler and ends in that exception. *)
Theorem load_state_dict_raises :
  (forall n sd,
     snd (load_state_dict n sd) = [] <->
     (forall k cur, (k, cur) ∈ state_dict n ->
        exists t, dict_get k sd = Some t /\ shape t = shape cur) /\
     (forall k, k ∈ keys sd -> k ∈ keys (state_dict n))) /\
  (forall i o i' o' hs hs' init init' n n',
     fc_model_Network i o hs init = Some n ->
     fc_model_Network i' o' hs' init' = Some n' ->
     hs <> hs' ->
     exists errs, raise_on_errors (load_state_dict n (state_dict n'))
                  = inr (RuntimeError errs) /\ errs <> []) /\
  (forall init init' trained,
     fc_model_Network 784 10 [512; 256; 128] init' = Some trained ->
     exists errs, try_this_cell (state_dict trained) init
                  = inr (RuntimeError errs) /\ errs <> []).
Proof.
  assert (Hwidth : forall i o i' o' hs hs' init init' n n',
     fc_model_Network i o hs init = Some n ->
     fc_model_Network i' o' hs' init' = Some n' ->
     hs <> hs' ->
     exists errs, raise_on_errors (load_state_dict n (state_dict n'))
                  = inr (RuntimeError errs) /\ errs <> []).
  { intros i o i' o' hs hs' init init' n n' Hn Hn' Hne.
    unfold raise_on_errors. case_decide as Herr.
    - exfalso. apply Hne.
      destruct (fc_model_Network_hidden _ _ _ _ _ Hn) as [Hhs Hs].
      destruct (fc_model_Network_hidden _ _ _ _ _ Hn') as [Hhs' Hs'].
      rewrite <-Hhs, <-Hhs'. apply load_ok_same_widths; [..|done].
      + eapply Forall_impl; [exact Hs|]. by intros l [? _].
      + eapply Forall_impl; [exact Hs'|]. by intros l [? _].
    - by eexists. }
  split; [exact load_state_dict_ok_iff|]. split; [exact Hwidth|].
  intros init init' trained Htrained. unfold try_this_cell.
  destruct (fc_model_Network 784 10 [400; 200; 100] init) as [model|] eqn:Hm;
    [|done].
  by apply (Hwidth 784 10 784 10 [400; 200; 100] [512; 256; 128] init init').
Qed.

(* ------------------------------------------------------------------ *)
(** ** The training loop *)

Section TrainingProofs.
Context `{TrainLib}.

Lemma only_step_mutates_app p l1 l2 :
  only_step_mutates p (l1 ++ l2) <->
  only_step_mutates p l1 /\ only_step_mutates (params_after p l1) l2.
Proof.
  revert p. induction l1 as [|[o p'] l1 IH]; intros p; simpl; [naive_solver|].
  rewrite IH. naive_solver.
Qed.

Lemma params_after_app p l1 l2 :
  params_after p (l1 ++ l2) = params_after (params_after p l1) l2.
Proof.
  revert p. induction l1 as [|[o p'] l1 IH]; intros p; simpl; [done|]. apply IH.
Qed.

Lemma batch_loop_spec st bs :
  let '(st', log) := batch_loop st bs in
  exists rs, length rs = length bs /\
    map fst log = concat (zip_with pass_ops bs rs) /\
    running_loss st' = foldl Radd (running_loss st) rs /\
    only_step_mutates (params st) log /\
    params_after (params st) log = params st'.
Proof.
  revert st. induction bs as [|[images labels] bs IH]; intros st; simpl.
  - exists []. repeat split.
  - specialize (IH (mkTstate
      (step (params st) (backward (criterion (forward (params st)
              (view_flat images)) labels) (zero_grad (grads st))))
      (backward (criterion (forward (params st) (view_flat images)) labels)
                (zero_grad (grads st)))
      (Radd (running_loss st)
            (item (criterion (forward (params st) (view_flat images)) labels))))).
    destruct (batch_loop _ bs) as [st2 l2].
    destruct IH as (rs & Hlen & Hops & Hrun & Hmut & Hend).
    eexists (_ :: rs). simpl in *. split; [by rewrite Hlen|].
    split; [by rewrite Hops|]. split; [done|].
    split; [|done]. naive_solver.
Qed.

Lemma epoch_spec trainloader e st :
  let '(st', log) := epoch trainloader e st in
  epoch_log_ok trainloader e log /\ only_step_mutates (params st) log.
Proof.
  unfold epoch.
  pose proof (batch_loop_spec (mkTstate (params st) (grads st) R0) (trainloader e))
    as Hb.
  destruct (batch_loop _ (trainloader e)) as [st' l].
  destruct Hb as (rs & Hlen & Hops & Hrun & Hmut & Hend). simpl in *.
  split.
  - exists rs. split; [done|]. rewrite map_app, Hops, Hrun. done.
  - apply only_step_mutates_app. split; [done|]. simpl. rewrite Hend.
    split; [done|done].
Qed.

(** C4: one pass of the outer loop takes every batch of the loader in
    turn and runs, on each, the statements in the order: flatten the
    images, forward pass on the flattened images, loss, [zero_grad],
    [backward], [step] (then [running_loss += loss.item()]); no statement
    but [optimizer.step()] changes the model's parameters. *)
Theorem training_pass_order (trainloader : loader) e st :
  let '(st', log) := epoch trainloader e st in
  (exists rs, length rs = length (trainloader e) /\
     map fst log =
       concat (zip_with pass_ops (trainloader e) rs)
       ++ [OPrint (Rdiv_nat (foldl Radd R0 rs) (length (trainloader e)))]) /\
  only_step_mutates (params st) log.
Proof. exact (epoch_spec trainloader e st). Qed.

Lemma train_from_spec trainloader e0 k st :
  let '(st', log) := train_from trainloader e0 k st in
  exists logs, length logs = k /\ log = concat logs /\
    forall j le, logs !! j = Some le -> epoch_log_ok trainloader (e0 + j) le.
Proof.
  revert e0 st. induction k as [|k IH]; intros e0 st; simpl.
  - exists []. split; [done|]. split; [done|]. by intros j le [=].
  - pose proof (epoch_spec trainloader e0 st) as He.
    destruct (epoch trainloader e0 st) as [st1 l1]. destruct He as [He _].
    specialize (IH (S e0) st1).
    destruct (train_from trainloader (S e0) k st1) as [st2 l2].
    destruct IH as (logs & Hlen & -> & Hlogs).
    exists (l1 :: logs). split; [simpl; lia|]. split; [done|].
    intros [|j] le Hj; simpl in Hj.
    + injection Hj as <-. by rewrite Nat.add_0_r.
    + replace (e0 + S j) with (S e0 + j) by lia. by apply Hlogs.
Qed.

(** X11: the MNIST training cell runs 5 epochs; epoch [e] takes every
    batch the loader yields in that epoch once, in order, and ends by
    printing the sum of the batches' loss values divided by the number of
    batches, [len(trainloader)]. *)
Theorem mnist_cell_epochs (trainloader : loader) st :
  let '(st', log) := mnist_training_cell trainloader st in
  exists logs, length logs = 5 /\ log = concat logs /\
    forall e le, logs !! e = Some le ->
      exists rs, length rs = length (trainloader e) /\
        map fst le =
          concat (zip_with pass_ops (trainloader e) rs)
          ++ [OPrint (Rdiv_nat (foldl Radd R0 rs) (length (trainloader e)))].
Proof.
  unfold mnist_training_cell.
  pose proof (train_from_spec trainloader 0 mnist_epochs st) as Ht.
  destruct (train_from trainloader 0 mnist_epochs st) as [st' log].
  exact Ht.
Qed.

End TrainingProofs.

(* ------------------------------------------------------------------ *)
(** ** Files written by the notebooks *)

Lemma exec_fs_stmt_other fs s path :
  path <> fs_stmt_path s -> exec_fs_stmt fs s !! path = fs !! path.
Proof.
  destruct s as [name root [|]|v p]; simpl; intros Hp; [|done|].
  - destruct (fs !! dataset_dir name root); [done|].
    by rewrite lookup_insert_ne by congruence.
  - unfold torch_save. by rewrite lookup_insert_ne by congruence.
Qed.

Lemma run_fs_other fs prog path :
  path ∉ map fs_stmt_path prog -> run_fs fs prog !! path = fs !! path.
Proof.
  unfold run_fs. revert fs.
  induction prog as [|s prog IH]; intros fs Hnot; simpl in *; [done|].
  rewrite elem_of_cons in Hnot.
  rewrite IH by naive_solver. apply exec_fs_stmt_other. naive_solver.
Qed.

Lemma run_fs_frame fs prog path :
  run_fs fs prog !! path <> fs !! path -> path ∈ map fs_stmt_path prog.
Proof.
  intros Hne. destruct (decide (path ∈ map fs_stmt_path prog)) as [|Hnot];
    [done|].
  exfalso. by apply Hne, run_fs_other.
Qed.

(** C7 (as the claim states it, refuted): the notebooks also write files
    other than [checkpoint.pth]: [datasets.MNIST(..., download=True)]
    downloads MNIST under [~/.pytorch/MNIST_data/]. *)
Lemma notebooks_only_checkpoint_counterexample :
  ~ (forall fs trained model path,
       run_fs fs (notebooks_fs trained model) !! path <> fs !! path ->
       path = "checkpoint.pth").
Proof.
  intros H.
  assert (Hp := H ∅ (demo_net demo_init 0) (demo_net demo_init 0)
                  "~/.pytorch/MNIST_data/MNIST").
  discriminate Hp. vm_compute. discriminate.
Qed.

(** C7 (amended): the paths the two notebooks change on disk are the
    MNIST and FashionMNIST download directories and [checkpoint.pth], and
    [checkpoint.pth] ends up holding the checkpoint dict (input and output
    sizes, hidden widths and state dict). *)
Theorem notebooks_written_files fs trained model :
  (forall path,
     run_fs fs (notebooks_fs trained model) !! path <> fs !! path ->
     path ∈ [dataset_dir "MNIST" "~/.pytorch/MNIST_data/";
             dataset_dir "FashionMNIST" "~/.pytorch/F_MNIST_data/";
             "checkpoint.pth"]) /\
  run_fs fs (notebooks_fs trained model) !! "checkpoint.pth"
    = Some (Pickled (checkpoint model)).
Proof.
  split.
  - intros path Hne. apply run_fs_frame in Hne. simpl in Hne.
    set_solver.
  - unfold run_fs, notebooks_fs. rewrite foldl_app. simpl.
    unfold torch_save. apply lookup_insert_eq.
Qed.

(* ------------------------------------------------------------------ *)
(** ** What changes the parameters *)

Lemma param_loc_elem st k p : In (k, p) (named_params st) -> p ∈ map snd (named_params st).
Proof. intros Hin. apply list_elem_of_fmap. exists (k, p). by rewrite list_elem_of_In. Qed.

Lemma set_obj_param_values l t st :
  l ∉ map snd (named_params st) -> param_values (set_obj l t st) = param_values st.
Proof.
  intros Hl. unfold param_values. cbn [named_params set_obj].
  apply map_ext_in. intros [k p] Hin. unfold read. cbn [objs set_obj].
  rewrite lookup_total_insert_ne; [done|].
  intros ->. apply Hl. by eapply param_loc_elem.
Qed.

Lemma heap_ok_fresh st : heap_ok st -> next_loc st ∉ map snd (named_params st).
Proof.
  intros (Hp & _ & _) Hin. apply list_elem_of_fmap in Hin as ([k p] & Heq & Hin).
  simpl in Heq. subst p. apply Hp in Hin. lia.
Qed.

Lemma alloc_var_heap_ok x t st : heap_ok st -> heap_ok (alloc_var x t st).
Proof.
  intros Hok. pose proof (heap_ok_fresh st Hok) as Hf.
  destruct Hok as (Hp & Hg & Hv). unfold alloc_var. split; [|split]; cbn.
  - intros k p Hin. apply Hp in Hin. lia.
  - intros p gl Hgl. destruct (Hg p gl Hgl). split; [lia|done].
  - intros y l. destruct (decide (x = y)) as [<-|Hne].
    + rewrite lookup_insert_eq. intros [= <-]. split; [lia|done].
    + rewrite lookup_insert_ne by done. intros Hl. destruct (Hv y l Hl). split; [lia|done].
Qed.

Lemma alloc_var_param_values x t st :
  heap_ok st -> param_values (alloc_var x t st) = param_values st.
Proof.
  intros Hok. pose proof (heap_ok_fresh st Hok) as Hf.
  unfold param_values. cbn [named_params alloc_var].
  apply map_ext_in. intros [k p] Hin. unfold read. cbn [objs alloc_var].
  rewrite lookup_total_insert_ne; [done|].
  intros <-. apply Hf. by eapply param_loc_elem.
Qed.

Lemma accumulate_grad_spec gk p st :
  heap_ok st ->
  heap_ok (accumulate_grad gk p st) /\
  named_params (accumulate_grad gk p st) = named_params st /\
  param_values (accumulate_grad gk p st) = param_values st /\
  vars (accumulate_grad gk p st) = vars st /\
  files (accumulate_grad gk p st) = files st /\
  next_loc st <= next_loc (accumulate_grad gk p st) /\
  (forall l, l < next_loc st -> (forall q, grad_of st !! q <> Some l) ->
     objs (accumulate_grad gk p st) !! l = objs st !! l) /\
  (forall q gl, grad_of st !! q = Some gl -> grad_of (accumulate_grad gk p st) !! q = Some gl).
Proof.
  intros Hok. pose proof (heap_ok_fresh st Hok) as Hf.
  unfold accumulate_grad. destruct (grad_of st !! p) as [gl|] eqn:Hp.
  - destruct Hok as (HP & HG & HV). destruct (HG p gl Hp) as [_ Hgl].
    split; [by split|]. split; [done|]. split; [by apply set_obj_param_values|].
    split; [done|]. split; [done|]. split; [done|]. split; [|done].
    intros l _ Hl. cbn. rewrite lookup_insert_ne; [done|].
    intros ->. by apply (Hl p).
  - destruct Hok as (HP & HG & HV). split; [split; [|split]; cbn|].
    + intros k q Hin. apply HP in Hin. lia.
    + intros q gl. destruct (decide (p = q)) as [<-|Hne].
      * rewrite lookup_insert_eq. intros [= <-]. split; [lia|done].
      * rewrite lookup_insert_ne by done. intros Hq. destruct (HG q gl Hq). split; [lia|done].
    + intros x l Hx. destruct (HV x l Hx). split; [lia|done].
    + split; [done|]. split.
      { unfold param_values. cbn. apply map_ext_in. intros [k q] Hin. unfold read. cbn.
        rewrite lookup_total_insert_ne; [done|]. intros <-. apply Hf. by eapply param_loc_elem. }
      split; [done|]. split; [done|]. split; [cbn; lia|]. split.
      * intros l Hl _. cbn. rewrite lookup_insert_ne; [done|lia].
      * intros q gl Hq. cbn. rewrite lookup_insert_ne; [done|]. congruence.
Qed.

Lemma backward_params_spec g lv ps st :
  heap_ok st ->
  heap_ok (backward_params g lv ps st) /\
  named_params (backward_params g lv ps st) = named_params st /\
  param_values (backward_params g lv ps st) = param_values st /\
  vars (backward_params g lv ps st) = vars st /\
  files (backward_params g lv ps st) = files st /\
  (forall l, l < next_loc st -> (forall q, grad_of st !! q <> Some l) ->
     objs (backward_params g lv ps st) !! l = objs st !! l).
Proof.
  unfold backward_params. revert st.
  induction ps as [|[k p] ps IH]; intros st Hok; simpl; [done|].
  destruct (accumulate_grad_spec (g k lv) p st Hok)
    as (Hok' & Hn & Hpv & Hv & Hfi & Hnext & Hobj & Hgr).
  destruct (IH _ Hok') as (Hok'' & Hn' & Hpv' & Hv' & Hfi' & Hobj').
  split; [done|]. split; [congruence|]. split; [congruence|].
  split; [congruence|]. split; [congruence|].
  intros l Hl Hng. rewrite Hobj'; [by apply Hobj|lia|].
  intros q Hq. destruct (grad_of st !! q) as [gl|] eqn:Eq.
  - rewrite (Hgr q gl Eq) in Hq. injection Hq as ->. by apply (Hng q).
  - (* a gradient created by this step is at [next_loc st] *)
    unfold accumulate_grad in Hq. destruct (grad_of st !! p) eqn:Ep; cbn in Hq; [congruence|].
    destruct (decide (p = q)) as [<-|Hne].
    + rewrite lookup_insert_eq in Hq. injection Hq as <-. lia.
    + rewrite lookup_insert_ne in Hq by done. congruence.
Qed.

Lemma step_params_heap_ok upd ps st : heap_ok (step_params upd ps st) <-> heap_ok st.
Proof.
  unfold step_params. revert st.
  induction ps as [|[k p] ps IH]; intros st; simpl; [done|].
  rewrite IH. unfold step_param. by destruct (grad_of st !! p).
Qed.

Lemma load_params_heap_ok sd ps st : heap_ok (load_params sd ps st) <-> heap_ok st.
Proof.
  unfold load_params. revert st.
  induction ps as [|[k p] ps IH]; intros st; simpl; [done|]. by rewrite IH.
Qed.

Lemma exec_stmt_heap_ok st s st' :
  heap_ok st -> exec_stmt st s = Some st' -> heap_ok st'.
Proof.
  intros Hok. destruct s; simpl.
  - intros [= <-]. by do 2 apply alloc_var_heap_ok.
  - destruct (vars st !! x); simpl; [|done]. intros [= <-]. done.
  - destruct (vars st !! inp); simpl; [|done]. intros [= <-]. by apply alloc_var_heap_ok.
  - destruct (vars st !! x), (vars st !! y); simpl; try done.
    intros [= <-]. by apply alloc_var_heap_ok.
  - destruct (vars st !! loss) as [l|]; simpl; [|done]. intros [= <-].
    by apply backward_params_spec.
  - intros [= <-]. destruct Hok as (HP & _ & HV).
    split; [done|]. split; [|done]. intros p gl. cbn. by rewrite lookup_empty.
  - intros [= <-]. by apply step_params_heap_ok.
  - by intros [= <-].
  - intros [= <-]. done.
  - intros [= <-]. by apply load_params_heap_ok.
Qed.

Lemma exec_stmt_keeps_params st s st' :
  heap_ok st -> keeps_params s = true -> exec_stmt st s = Some st' ->
  named_params st' = named_params st /\ param_values st' = param_values st.
Proof.
  intros Hok Hs. destruct s; simpl in Hs |- *; try done.
  - intros [= <-]. split; [done|].
    rewrite alloc_var_param_values by by apply alloc_var_heap_ok.
    by apply alloc_var_param_values.
  - destruct (vars st !! x) as [l|] eqn:Hx; simpl; [|done]. intros [= <-].
    split; [done|]. apply set_obj_param_values.
    destruct Hok as (_ & _ & HV). by destruct (HV x l Hx).
  - destruct (vars st !! inp); simpl; [|done]. intros [= <-].
    split; [done|]. by apply alloc_var_param_values.
  - destruct (vars st !! x), (vars st !! y); simpl; try done. intros [= <-].
    split; [done|]. by apply alloc_var_param_values.
  - destruct (vars st !! loss) as [l|]; simpl; [|done]. intros [= <-].
    destruct (backward_params_spec g (read st l) (named_params st) st Hok)
      as (_ & ? & ? & _). done.
  - by intros [= <-].
  - by intros [= <-].
  - by intros [= <-].
Qed.

Lemma exec_stmts_keeps_params st ss st' :
  heap_ok st -> Forall (fun s => keeps_params s = true) ss ->
  exec_stmts st ss = Some st' ->
  heap_ok st' /\ param_values st' = param_values st.
Proof.
  revert st. induction ss as [|s ss IH]; intros st Hok Hall; simpl.
  - by intros [= <-].
  - inversion Hall as [|? ? Hs Hall']; subst.
    destruct (exec_stmt st s) as [st1|] eqn:E; simpl; [|done]. intros H.
    destruct (exec_stmt_keeps_params st s st1 Hok Hs E) as [_ Hpv].
    destruct (IH st1 (exec_stmt_heap_ok st s st1 Hok E) Hall' H) as [Hok' Hpv'].
    split; [done|]. congruence.
Qed.

(** C10 (as the claim states it, refuted): [optimizer.step()] is not the
    only statement that changes parameter values: [model.load_state_dict]
    copies the state dict's tensors into them in place. *)
Lemma only_step_mutates_counterexample :
  ~ (forall st s st', heap_ok st -> exec_stmt st s = Some st' ->
       param_values st' <> param_values st -> exists upd, s = SStep upd).
Proof.
  intros H.
  set (st0 := mkHstate {[0 := mkTensor [1] [0%Z]]} [("w", 0)] ∅ ∅ 1 ∅).
  assert (Hok : heap_ok st0).
  { split; [|split]; cbn.
    - intros k p Hin. apply list_elem_of_singleton in Hin. injection Hin as -> ->. lia.
    - intros p gl. by rewrite lookup_empty.
    - intros x l. by rewrite lookup_empty. }
  destruct (H st0 (SLoadStateDict [("w", mkTensor [1] [5%Z])]) _ Hok eq_refl)
    as [upd Hupd]; [|discriminate Hupd].
  vm_compute. discriminate.
Qed.

(** C10 (amended): the layout [heap_ok] is kept by every statement.  A
    forward pass and a loss computation only bind a new tensor: no object
    that existed before changes, nor any [.grad] or file.  A backward pass
    changes only gradient tensors (it may also create new ones), not the
    parameters, the variables or the files.  Reading the state dict
    changes nothing; saving writes the current parameter values to [path]
    and no other file, and no object.  So the parameter values change only
    through [optimizer.step()] or [model.load_state_dict]: any sequence of
    the other statements leaves them as they were. *)
Theorem parameter_changes :
  (forall st s st', heap_ok st -> exec_stmt st s = Some st' -> heap_ok st') /\
  (forall st out inp f st', heap_ok st -> exec_stmt st (SForward out inp f) = Some st' ->
     (forall l, l < next_loc st -> objs st' !! l = objs st !! l) /\
     grad_of st' = grad_of st /\ files st' = files st) /\
  (forall st out x y f st', heap_ok st -> exec_stmt st (SLoss out x y f) = Some st' ->
     (forall l, l < next_loc st -> objs st' !! l = objs st !! l) /\
     grad_of st' = grad_of st /\ files st' = files st) /\
  (forall st loss g st', heap_ok st -> exec_stmt st (SBackward loss g) = Some st' ->
     (forall l, l < next_loc st -> (forall p, grad_of st !! p <> Some l) ->
        objs st' !! l = objs st !! l) /\
     param_values st' = param_values st /\ vars st' = vars st /\ files st' = files st) /\
  (forall st, exec_stmt st SStateDictKeys = Some st) /\
  (forall st path st', exec_stmt st (SSave path) = Some st' ->
     objs st' = objs st /\ grad_of st' = grad_of st /\ vars st' = vars st /\
     files st' !! path = Some (Pickled (state_dict_value (param_values st))) /\
     (forall q, q <> path -> files st' !! q = files st !! q)) /\
  (forall st ss st', heap_ok st -> Forall (fun s => keeps_params s = true) ss ->
     exec_stmts st ss = Some st' -> param_values st' = param_values st).
Proof.
  split; [exact exec_stmt_heap_ok|].
  split.
  { intros st out inp f st' _. simpl. destruct (vars st !! inp); simpl; [|done].
    intros [= <-]. split; [|done]. intros l Hl. cbn. rewrite lookup_insert_ne; [done|lia]. }
  split.
  { intros st out x y f st' _. simpl. destruct (vars st !! x), (vars st !! y); simpl; try done.
    intros [= <-]. split; [|done]. intros l Hl. cbn. rewrite lookup_insert_ne; [done|lia]. }
  split.
  { intros st loss g st' Hok. simpl. destruct (vars st !! loss) as [l|]; simpl; [|done].
    intros [= <-].
    destruct (backward_params_spec g (read st l) (named_params st) st Hok)
      as (_ & _ & ? & ? & ? & ?). done. }
  split; [done|].
  split.
  { intros st path st'. simpl. intros [= <-]. cbn. unfold torch_save.
    split; [done|]. split; [done|]. split; [done|].
    split; [apply lookup_insert_eq|]. intros q Hq. by rewrite lookup_insert_ne. }
  intros st ss st' Hok Hall H. by destruct (exec_stmts_keeps_params st ss st' Hok Hall H).
Qed.

Lemma parameter_changes_witness :
  let st0 := mkHstate {[0 := mkTensor [1; 2] [1%Z; 2%Z]; 1 := mkTensor [1] [3%Z];
                        2 := mkTensor [1; 2] [0%Z; 0%Z]]}
                      [("0.weight", 0); ("0.bias", 1)] {[0 := 2]} ∅ 3 ∅ in
  let ss := backward_cell (mkTensor [2] [0%Z; 1%Z])
                          (mkTensor [1] [1%Z]) []
                          (fun ps x => mkTensor [1] (take 1 (data x)))
                          (fun o y => mkTensor [] [5%Z])
                          (fun k l => mkTensor [] (data l)) in
  heap_ok st0 /\ Forall (fun s => keeps_params s = true) ss /\
  exists st', exec_stmts st0 ss = Some st' /\ param_values st' = param_values st0.
Proof.
  intros st0 ss.
  assert (Hok : heap_ok st0).
  { split; [|split]; cbn.
    - intros k p Hin. rewrite elem_of_cons, list_elem_of_singleton in Hin.
      destruct Hin as [[= -> ->]|[= -> ->]]; lia.
    - intros p gl. rewrite lookup_singleton_Some. intros [<- <-].
      split; [lia|]. rewrite elem_of_cons, list_elem_of_singleton. lia.
    - intros x l. by rewrite lookup_empty. }
  assert (Hall : Forall (fun s => keeps_params s = true) ss) by repeat constructor.
  split; [exact Hok|]. split; [exact Hall|].
  assert (Hrun : is_Some (exec_stmts st0 ss)) by (vm_compute; eauto).
  destruct Hrun as [st' Hrun]. exists st'. split; [exact Hrun|].
  exact (proj2 (proj2 (proj2 (proj2 (proj2 (proj2 parameter_changes)))))
           st0 ss st' Hok Hall Hrun).
Defined.

(* ------------------------------------------------------------------ *)
(** ** Further properties of the notebooks' code *)


(** Parameter names are pairwise distinct. *)

Lemma hidden_key_weight_bias k k' : hidden_prefix k +:+ "weight" <> hidden_prefix k' +:+ "bias".
Proof. intros Heq. apply hidden_key_inj in Heq as [_ ?]. done. Qed.

Lemma hidden_keys_not_below j len k s :
  k < j -> hidden_prefix k +:+ s ∉ hidden_keys j len.
Proof.
  intros Hk Hin. apply hidden_keys_elem in Hin as (k' & s' & Hk' & Heq).
  apply hidden_key_inj in Heq as [-> _]. lia.
Qed.

Lemma NoDup_hidden_keys j len : NoDup (hidden_keys j len).
Proof.
  revert j. induction len as [|len IH]; intros j; simpl; [constructor|].
  constructor.
  - rewrite elem_of_cons. intros [Heq|Hin].
    + by eapply hidden_key_weight_bias.
    + eapply hidden_keys_not_below; [|exact Hin]. lia.
  - constructor; [|apply IH].
    eapply hidden_keys_not_below. lia.
Qed.

(** X1: the parameter names of [model.state_dict()] are pairwise distinct:
    a hidden layer's index is printed without a dot, so the names of two
    layers never coincide, and none of them is an [output.] name. *)
Theorem state_dict_keys_nodup n : NoDup (keys (state_dict n)).
Proof.
  rewrite keys_state_dict. apply NoDup_app. split; [apply NoDup_hidden_keys|].
  split.
  - intros x Hx. apply hidden_keys_elem in Hx as (k & s & _ & ->).
    rewrite !elem_of_cons, elem_of_nil. intros [H|[H|H]]; [..|done].
    + exact (hidden_key_not_output k s "weight" H).
    + exact (hidden_key_not_output k s "bias" H).
  - constructor; [|constructor; [set_solver|constructor]].
    rewrite elem_of_cons, elem_of_nil. intros [H|H]; [discriminate|done].
Qed.

(** What [load_state_dict] copies. *)

Lemma load_param_shape sd k cur : shape (fst (load_param sd k cur)) = shape cur.
Proof. unfold load_param. destruct (dict_get k sd); [case_decide|]; done. Qed.

Lemma load_param_value sd k cur :
  fst (load_param sd k cur) =
  match dict_get k sd with
  | Some t => if decide (shape t = shape cur) then t else cur
  | None => cur
  end.
Proof.
  unfold load_param. destruct (dict_get k sd) as [[s d]|]; [|done].
  simpl. case_decide; [by subst|done].
Qed.

Lemma load_linear_effect sd prefix l :
  same_linear l (fst (load_linear sd prefix l)) /\
  linear_state_dict prefix (fst (load_linear sd prefix l)) =
  map (loaded_entry sd) (linear_state_dict prefix l).
Proof.
  unfold load_linear.
  pose proof (load_param_shape sd (prefix +:+ "weight") (weight l)) as Sw.
  pose proof (load_param_shape sd (prefix +:+ "bias") (bias l)) as Sb.
  unfold loaded_entry. simpl.
  destruct (load_param sd (prefix +:+ "weight") (weight l)) as [w e1].
  destruct (load_param sd (prefix +:+ "bias") (bias l)) as [b e2].
  simpl in *. split; [repeat split; done|done].
Qed.

Lemma load_hidden_effect sd j ls :
  Forall2 same_linear ls (fst (load_hidden sd j ls)) /\
  hidden_state_dict j (fst (load_hidden sd j ls)) =
  map (loaded_entry sd) (hidden_state_dict j ls).
Proof.
  revert j. induction ls as [|l ls IH]; intros j; [split; [constructor|done]|].
  cbn [load_hidden].
  pose proof (load_linear_effect sd (hidden_prefix j) l) as [Hs He].
  destruct (load_linear sd (hidden_prefix j) l) as [l' e].
  destruct (IH (S j)) as [Hs' He'].
  destruct (load_hidden sd (S j) ls) as [ls'' e'].
  cbn [fst] in *. split; [by constructor|].
  cbn [hidden_state_dict]. by rewrite map_app, He, He'.
Qed.

Lemma load_state_dict_effect n sd :
  same_network n (fst (load_state_dict n sd)) /\
  state_dict (fst (load_state_dict n sd)) = map (loaded_entry sd) (state_dict n).
Proof.
  unfold load_state_dict.
  pose proof (load_hidden_effect sd 0 (hidden_layers n)) as [Hs He].
  pose proof (load_linear_effect sd "output." (output n)) as [Hso Heo].
  destruct (load_hidden sd 0 (hidden_layers n)) as [hs eh].
  destruct (load_linear sd "output." (output n)) as [o eo].
  cbn [fst] in *. split; [done|].
  unfold state_dict. cbn [hidden_layers output]. by rewrite map_app, He, Heo.
Qed.

(** Saving and loading. *)

Lemma same_linear_refl l : same_linear l l.
Proof. repeat split. Qed.

Lemma same_network_refl n : same_network n n.
Proof.
  split; [|split; [apply same_linear_refl|done]].
  induction (hidden_layers n); constructor; [apply same_linear_refl|done].
Qed.

(** X3: the cells [torch.save(model.state_dict(), path)],
    [state_dict = torch.load(path)] and [model.load_state_dict(state_dict)]:
    the file gives the state dict back, and loading it into any network of
    the same architecture raises nothing and makes that network equal to
    the saved one. *)
Theorem state_dict_save_load n n' path fs :
  same_network n n' ->
  ((torch_load path (torch_save (state_dict_value (state_dict n)) path fs)
     ≫= as_dict) ≫= as_tensor_items) = Some (state_dict n) /\
  load_state_dict n' (state_dict n) = (n, []).
Proof.
  intros Hsame. split.
  - unfold torch_load, torch_save. rewrite lookup_insert_eq. simpl.
    apply as_tensor_items_value.
  - by apply load_state_dict_same.
Qed.

Lemma state_dict_save_load_witness :
  same_network (mkNetwork (hidden_from demo_init 0 3 [2]) (nn_Linear demo_init 1 2 2) (1, 2))
               (mkNetwork (hidden_from (fun _ _ => []) 0 3 [2])
                          (nn_Linear (fun _ _ => []) 1 2 2) (1, 2)) /\
  let n := mkNetwork (hidden_from demo_init 0 3 [2]) (nn_Linear demo_init 1 2 2) (1, 2) in
  let n' := mkNetwork (hidden_from (fun _ _ => []) 0 3 [2])
                      (nn_Linear (fun _ _ => []) 1 2 2) (1, 2) in
  ((torch_load "checkpoint.pth"
      (torch_save (state_dict_value (state_dict n)) "checkpoint.pth" ∅)
     ≫= as_dict) ≫= as_tensor_items) = Some (state_dict n) /\
  load_state_dict n' (state_dict n) = (n, []).
Proof.
  assert (Hs : same_network
    (mkNetwork (hidden_from demo_init 0 3 [2]) (nn_Linear demo_init 1 2 2) (1, 2))
    (mkNetwork (hidden_from (fun _ _ => []) 0 3 [2])
               (nn_Linear (fun _ _ => []) 1 2 2) (1, 2))).
  { vm_compute. repeat constructor. }
  split; [exact Hs|]. exact (state_dict_save_load _ _ "checkpoint.pth" ∅ Hs).
Defined.

Lemma dict_get_value k sd :
  dict_get k (map (fun '(k, t) => (k, PyTensor t)) sd) = PyTensor <$> dict_get k sd.
Proof.
  induction sd as [|[k' t] sd IH]; simpl; [done|]. by case_decide.
Qed.

Lemma dict_get_not_key {A} k (d : list (string * A)) :
  k ∉ keys d -> dict_get k d = None.
Proof.
  induction d as [|[k' v] d IH]; simpl; [done|].
  unfold keys; simpl; fold (keys d). rewrite elem_of_cons.
  intros Hk. rewrite decide_False by naive_solver. apply IH. naive_solver.
Qed.

Lemma input_size_not_param n : "input_size" ∉ keys (state_dict n).
Proof.
  rewrite keys_state_dict, elem_of_app. intros [Hin|Hin].
  - apply hidden_keys_elem in Hin as (k & s & _ & Heq).
    rewrite hidden_key_eq in Heq. discriminate Heq.
  - rewrite !elem_of_cons, elem_of_nil in Hin. naive_solver.
Qed.

(** X4: [load_checkpoint] raises on a file written by
    [torch.save(model.state_dict(), path)]: a plain state dict has no key
    ["input_size"]. *)
Theorem load_checkpoint_plain_state_dict n path fs init :
  load_checkpoint path (torch_save (state_dict_value (state_dict n)) path fs) init
  = None.
Proof.
  unfold load_checkpoint, torch_load, torch_save. rewrite lookup_insert_eq.
  simpl. unfold state_dict_value. rewrite (dict_get_value "input_size").
  by rewrite (dict_get_not_key "input_size") by apply input_size_not_param.
Qed.

Lemma as_int_list_inv l hs : as_int_list l = Some hs -> l = map PyInt hs.
Proof.
  revert hs. induction l as [|[n| | |] l IH]; intros hs; simpl; try done.
  - by intros [= <-].
  - destruct (as_int_list l) as [hs'|] eqn:E; [|done]. simpl. intros [= <-].
    simpl. by rewrite (IH hs').
Qed.

Lemma as_tensor_items_inv d sd :
  as_tensor_items d = Some sd -> PyDict d = state_dict_value sd.
Proof.
  unfold state_dict_value. revert sd.
  induction d as [|[k [| | t |]] d IH]; intros sd; simpl; try done.
  - by intros [= <-].
  - destruct (as_tensor_items d) as [sd'|] eqn:E; [|done]. simpl. intros [= <-].
    simpl. specialize (IH sd' eq_refl). injection IH as ->. done.
Qed.

Lemma fc_model_Network_ends i o hs init n :
  fc_model_Network i o hs init = Some n ->
  (exists l0, hidden_layers n !! 0 = Some l0 /\ in_features l0 = i) /\
  out_features (output n) = o.
Proof.
  destruct hs as [|h hs]; [done|]. unfold fc_model_Network. intros [= <-].
  simpl. split; [by eexists|done].
Qed.

Lemma keys_map_entry sd d : keys (map (loaded_entry sd) d) = keys d.
Proof. unfold keys. rewrite map_map. by apply map_ext. Qed.

Lemma load_ok_values n sd k t :
  snd (load_state_dict n sd) = [] ->
  (k, t) ∈ state_dict (fst (load_state_dict n sd)) -> dict_get k sd = Some t.
Proof.
  intros Herr Hin. apply load_state_dict_ok_iff in Herr as [Hall _].
  rewrite (proj2 (load_state_dict_effect n sd)) in Hin.
  apply list_elem_of_fmap_1 in Hin as ([k' cur] & Heq & Hin').
  unfold loaded_entry in Heq. simpl in Heq. injection Heq as -> ->.
  destruct (Hall _ _ Hin') as (t0 & Ht0 & Hs).
  rewrite load_param_value, Ht0, decide_True by done. done.
Qed.

(** X5: when [load_checkpoint(filepath)] returns a model, the file holds a
    dict whose ["input_size"] is the input size of the model's first
    hidden layer, ["output_size"] the size of its output layer,
    ["hidden_layers"] the widths of its hidden layers, and whose
    ["state_dict"] holds every parameter of the model under its name and
    no other key. *)
Theorem load_checkpoint_sound path fs init m :
  load_checkpoint path fs init = Some m ->
  exists d sd l0,
    torch_load path fs = Some (PyDict d) /\
    hidden_layers m !! 0 = Some l0 /\
    dict_get "input_size" d = Some (PyInt (in_features l0)) /\
    dict_get "output_size" d = Some (PyInt (out_features (output m))) /\
    dict_get "hidden_layers" d =
      Some (PyList (map (fun l => PyInt (out_features l)) (hidden_layers m))) /\
    dict_get "state_dict" d = Some (state_dict_value sd) /\
    (forall k t, (k, t) ∈ state_dict m -> dict_get k sd = Some t) /\
    (forall k, k ∈ keys sd -> k ∈ keys (state_dict m)).
Proof.
  intros H. unfold load_checkpoint in H.
  destruct (torch_load path fs) as [ckv|] eqn:Hl; [|done]. simpl in H.
  destruct ckv as [| | |ck]; try done. simpl in H.
  destruct (dict_get "input_size" ck) as [[i| | |]|] eqn:Hi; try done. simpl in H.
  destruct (dict_get "output_size" ck) as [[o| | |]|] eqn:Ho; try done. simpl in H.
  destruct (dict_get "hidden_layers" ck) as [[|l| |]|] eqn:Hh; try done. simpl in H.
  destruct (as_int_list l) as [hs|] eqn:Hhs; try done. simpl in H.
  destruct (dict_get "state_dict" ck) as [[| | |sdd]|] eqn:Hs; try done. simpl in H.
  destruct (as_tensor_items sdd) as [sd|] eqn:Hsd; try done. simpl in H.
  destruct (fc_model_Network i o hs init) as [n|] eqn:Hn; try done. simpl in H.
  pose proof (load_state_dict_effect n sd) as [Hsame _].
  pose proof (load_ok_values n sd) as Hvals.
  pose proof (load_state_dict_ok_iff n sd) as [Hok _].
  destruct (load_state_dict n sd) as [n' errs] eqn:Hload.
  case_decide as Herr; [|done]. injection H as <-. subst errs.
  cbn [fst snd] in *.
  destruct (fc_model_Network_ends _ _ _ _ _ Hn) as [(l0 & Hl0 & Hin) Hout].
  destruct (fc_model_Network_hidden _ _ _ _ _ Hn) as [Hhid _].
  destruct Hsame as (Hsh & Hso & _).
  edestruct (Forall2_lookup_l same_linear) as (l0' & Hl0' & Hi0 & _);
    [exact Hsh|exact Hl0|].
  exists ck, sd, l0'. split; [done|]. split; [done|].
  split; [by rewrite Hi, Hi0, Hin|].
  split; [by rewrite Ho, (proj1 (proj2 Hso)), Hout|].
  split.
  { rewrite Hh, (as_int_list_inv _ _ Hhs), <-Hhid, map_map. do 2 f_equal.
    apply map_eq_lookup; [by eapply Forall2_length|].
    intros k a b Ha Hb.
    edestruct (Forall2_lookup_l same_linear) as (b' & Hb' & Hab);
      [exact Hsh|exact Ha|].
    rewrite Hb in Hb'. injection Hb' as <-. simpl. f_equal. symmetry. apply Hab. }
  split; [by rewrite Hs, (as_tensor_items_inv _ _ Hsd)|].
  split; [intros k t; by apply Hvals|].
  intros k Hk. destruct (Hok eq_refl) as [_ Hkeys].
  pose proof (proj2 (load_state_dict_effect n sd)) as He.
  rewrite Hload in He. cbn [fst] in He. rewrite He, keys_map_entry.
  by apply Hkeys.
Qed.

Lemma load_checkpoint_sound_witness :
  let n := mkNetwork (hidden_from demo_init 0 3 [2]) (nn_Linear demo_init 1 2 2) (1, 2) in
  let fs := torch_save (make_checkpoint 3 2 n) "checkpoint.pth" ∅ in
  load_checkpoint "checkpoint.pth" fs demo_init = Some n /\
  exists d sd l0,
    torch_load "checkpoint.pth" fs = Some (PyDict d) /\
    hidden_layers n !! 0 = Some l0 /\
    dict_get "input_size" d = Some (PyInt (in_features l0)) /\
    dict_get "output_size" d = Some (PyInt (out_features (output n))) /\
    dict_get "hidden_layers" d =
      Some (PyList (map (fun l => PyInt (out_features l)) (hidden_layers n))) /\
    dict_get "state_dict" d = Some (state_dict_value sd) /\
    (forall k t, (k, t) ∈ state_dict n -> dict_get k sd = Some t) /\
    (forall k, k ∈ keys sd -> k ∈ keys (state_dict n)).
Proof.
  assert (Hl : load_checkpoint "checkpoint.pth"
    (torch_save (make_checkpoint 3 2
       (mkNetwork (hidden_from demo_init 0 3 [2]) (nn_Linear demo_init 1 2 2) (1, 2)))
       "checkpoint.pth" ∅) demo_init
    = Some (mkNetwork (hidden_from demo_init 0 3 [2]) (nn_Linear demo_init 1 2 2) (1, 2))).
  { vm_compute. reflexivity. }
  split; [exact Hl|]. exact (load_checkpoint_sound _ _ _ _ Hl).
Defined.

(** Stale gradients and running loss. *)

Section StaleState.
Context `{TrainLib}.

Lemma batch_loop_stale (zg : forall g g', zero_grad g = zero_grad g') p g g' r bs :
  let '(st1, log1) := batch_loop (mkTstate p g r) bs in
  let '(st2, log2) := batch_loop (mkTstate p g' r) bs in
  log1 = log2 /\ params st1 = params st2 /\ running_loss st1 = running_loss st2.
Proof.
  destruct bs as [|[images labels] bs]; [done|]. simpl.
  rewrite (zg g g').
  destruct (batch_loop _ bs) as [st2 l2]. done.
Qed.

Lemma train_from_stale (zg : forall g g', zero_grad g = zero_grad g')
    trainloader e0 k p g g' r r' :
  let '(st1, log1) := train_from trainloader e0 k (mkTstate p g r) in
  let '(st2, log2) := train_from trainloader e0 k (mkTstate p g' r') in
  log1 = log2 /\ params st1 = params st2 /\
  (0 < k \/ r = r' -> running_loss st1 = running_loss st2).
Proof.
  revert e0 p g g' r r'. induction k as [|k IH]; intros e0 p g g' r r'; simpl.
  - split; [done|]. split; [done|]. intros [Hk|Hr]; [lia|by subst].
  - unfold epoch. cbn [params grads].
    pose proof (batch_loop_stale zg p g g' R0 (trainloader e0)) as Hb.
    destruct (batch_loop (mkTstate p g R0) (trainloader e0)) as [s1 l1].
    destruct (batch_loop (mkTstate p g' R0) (trainloader e0)) as [s2 l2].
    destruct Hb as (-> & Hp & Hr).
    destruct s1 as [p1 g1 r1], s2 as [p2 g2 r2]. cbn in Hp, Hr |- *. subst p2 r2.
    specialize (IH (S e0) p1 g1 g2 r1 r1).
    destruct (train_from trainloader (S e0) k (mkTstate p1 g1 r1)) as [t1 m1].
    destruct (train_from trainloader (S e0) k (mkTstate p1 g2 r1)) as [t2 m2].
    destruct IH as (-> & Hp & Hr). split; [done|]. split; [done|].
    intros _. apply Hr. by right.
Qed.

(** X7: [optimizer.zero_grad()] discards the stored gradients (whatever
    they are, it leaves the same ones) and [running_loss] is reset at the
    start of every epoch; so the MNIST training cell logs the same
    statements and printed losses and ends with the same parameters and
    running loss whatever gradients and running loss earlier cells left. *)
Theorem mnist_cell_ignores_stale_state
    (zg : forall g g', zero_grad g = zero_grad g') trainloader p g g' r r' :
  let '(st1, log1) := mnist_training_cell trainloader (mkTstate p g r) in
  let '(st2, log2) := mnist_training_cell trainloader (mkTstate p g' r') in
  log1 = log2 /\ params st1 = params st2 /\ running_loss st1 = running_loss st2.
Proof.
  unfold mnist_training_cell.
  pose proof (train_from_stale zg trainloader 0 mnist_epochs p g g' r r') as Ht.
  destruct (train_from trainloader 0 mnist_epochs (mkTstate p g r)) as [s1 l1].
  destruct (train_from trainloader 0 mnist_epochs (mkTstate p g' r')) as [s2 l2].
  destruct Ht as (? & ? & Hr). split; [done|]. split; [done|].
  apply Hr. left. unfold mnist_epochs. lia.
Qed.
End StaleState.

Lemma mnist_cell_ignores_stale_state_witness :
  (forall g g', @zero_grad demo_lib g = @zero_grad demo_lib g') /\
  let '(st1, log1) := @mnist_training_cell demo_lib
      (fun _ => [(1%Z, 2%Z); (3%Z, 4%Z)]) (@mkTstate demo_lib 0%Z 5%Z 1%Z) in
  let '(st2, log2) := @mnist_training_cell demo_lib
      (fun _ => [(1%Z, 2%Z); (3%Z, 4%Z)]) (@mkTstate demo_lib 0%Z 7%Z 9%Z) in
  log1 = log2 /\ params st1 = params st2 /\ running_loss st1 = running_loss st2.
Proof.
  split; [intros; reflexivity|].
  apply (@mnist_cell_ignores_stale_state demo_lib). intros; reflexivity.
Defined.

(** Shapes through the [nn.Sequential] models. *)

Lemma flatten_mnist b : 0 < b -> flatten_images (mnist_batch_shape b) = Some [b; 784].
Proof.
  intros Hb. unfold flatten_images, mnist_batch_shape, view_shape.
  assert (E : foldr Nat.mul 1 [b; 1; 28; 28] = 784 * b) by (simpl; lia).
  rewrite E, decide_False by lia.
  rewrite Nat.Div0.mod_mul, decide_True by done.
  rewrite Nat.div_mul by lia. done.
Qed.

Lemma logits_model_raises init shp :
  last shp <> Some 784 -> sequential_shape (logits_model init) shp = None.
Proof.
  intros Hl. unfold logits_model. cbn [sequential_shape].
  destruct (module_shape _ shp) eqn:E; [|done]. exfalso.
  unfold module_shape in E. destruct (last shp) as [d|]; [|done].
  case_decide as Hd; [|done]. simpl in Hd. subst d. done.
Qed.

Lemma sequential_shape_app ms1 ms2 shp :
  sequential_shape (ms1 ++ ms2) shp = sequential_shape ms1 shp ≫= sequential_shape ms2.
Proof.
  revert shp. induction ms1 as [|m ms1 IH]; intros shp; simpl; [done|].
  destruct (module_shape m shp); simpl; [apply IH|done].
Qed.

(** X8: flattening a batch of [b > 0] MNIST images with
    [images.view(images.shape[0], -1)] gives shape [b x 784], and both
    [nn.Sequential] models of the notebook map it to [b x 10]; an empty
    batch cannot be flattened, and on an input whose last dimension is not
    784 both models raise. *)
Theorem notebook_models_shapes init b :
  0 < b ->
  (flatten_images (mnist_batch_shape b) ≫= sequential_shape (logits_model init))
    = Some [b; 10] /\
  (flatten_images (mnist_batch_shape b) ≫= sequential_shape (logsoftmax_model init))
    = Some [b; 10] /\
  flatten_images (mnist_batch_shape 0) = None /\
  (forall shp, last shp <> Some 784 ->
     sequential_shape (logits_model init) shp = None /\
     sequential_shape (logsoftmax_model init) shp = None).
Proof.
  intros Hb. rewrite flatten_mnist by done.
  split; [reflexivity|]. split; [reflexivity|]. split; [reflexivity|].
  intros shp Hl. unfold logsoftmax_model. rewrite sequential_shape_app.
  by rewrite logits_model_raises.
Qed.

Lemma notebook_models_shapes_witness :
  0 < 64 /\
  (flatten_images (mnist_batch_shape 64) ≫= sequential_shape (logits_model demo_init))
    = Some [64; 10] /\
  (flatten_images (mnist_batch_shape 64) ≫= sequential_shape (logsoftmax_model demo_init))
    = Some [64; 10] /\
  flatten_images (mnist_batch_shape 0) = None /\
  (forall shp, last shp <> Some 784 ->
     sequential_shape (logits_model demo_init) shp = None /\
     sequential_shape (logsoftmax_model demo_init) shp = None).
Proof. split; [lia|]. apply (notebook_models_shapes demo_init 64). lia. Defined.

(** The batches of the [DataLoader]. *)

Lemma div_step n bs :
  0 < bs -> 0 < n -> (n + bs - 1) / bs = S ((n - bs + bs - 1) / bs).
Proof.
  intros Hbs Hn.
  replace (n + bs - 1) with (1 * bs + (n - 1)) by lia.
  rewrite Nat.div_add_l by lia. f_equal.
  destruct (decide (n <= bs)).
  - rewrite !Nat.div_small by lia. done.
  - f_equal. lia.
Qed.

Lemma batches_go_spec {A} fuel bs (l : list A) :
  0 < bs -> length l <= fuel ->
  concat (batches_go fuel bs l) = l /\
  length (batches_go fuel bs l) = (length l + bs - 1) / bs /\
  Forall (fun b => 0 < length b <= bs) (batches_go fuel bs l) /\
  (forall j b, batches_go fuel bs l !! j = Some b ->
     S j < length (batches_go fuel bs l) -> length b = bs).
Proof.
  intros Hbs. revert l. induction fuel as [|fuel IH]; intros l Hl.
  - destruct l; [|simpl in Hl; lia]. simpl.
    rewrite Nat.div_small by lia. split; [done|]. split; [done|].
    split; [constructor|]. intros j b Hj. done.
  - destruct l as [|x l'].
    + simpl. rewrite Nat.div_small by lia. split; [done|]. split; [done|].
      split; [constructor|]. intros j b Hj. done.
    + cbn [batches_go]. remember (x :: l') as l eqn:El.
      assert (Hlen : 0 < length l) by (subst; simpl; lia).
      destruct (IH (drop bs l)) as (Hc & Hn & Hf & Hfull);
        [rewrite length_drop; lia|].
      split; [by rewrite concat_cons, Hc, take_drop|].
      split; [rewrite length_cons, Hn, length_drop, (div_step (length l) bs) by lia;
              done|].
      split.
      { constructor; [|done]. rewrite length_take. lia. }
      intros [|j] b Hj Hlt; simpl in Hj, Hlt.
      * injection Hj as <-. rewrite length_take.
        destruct (decide (length l <= bs)) as [Hle|]; [|lia].
        exfalso. rewrite Hn, length_drop in Hlt.
        replace (length l - bs) with 0 in Hlt by lia.
        rewrite Nat.div_small in Hlt by lia. lia.
      * apply (Hfull j); [done|lia].
Qed.

Lemma map_lookup_total_seq {A} `{Inhabited A} (l : list A) :
  map (fun i => l !!! i) (seq 0 (length l)) = l.
Proof.
  apply list_eq. intros i. rewrite list_lookup_fmap.
  destruct (decide (i < length l)) as [Hi|Hi].
  - rewrite lookup_seq_lt by done. simpl.
    destruct (lookup_lt_is_Some_2 l i Hi) as [x Hx].
    rewrite Hx. f_equal. by apply list_lookup_total_correct.
  - rewrite lookup_seq_ge by lia. rewrite lookup_ge_None_2 by lia. done.
Qed.

(** X9: in every epoch, [DataLoader(trainset, batch_size=64, shuffle=True)]
    yields every sample exactly once, in [ceil(N / 64)] batches (the
    [len(trainloader)] the training cell divides by), each of 1 to 64
    samples and all but the last of exactly 64. *)
Theorem trainloader_epoch {A} `{Inhabited A} (dataset : list A) sampler e :
  sampler e ≡ₚ seq 0 (length dataset) ->
  concat (trainloader_batches dataset sampler e) ≡ₚ dataset /\
  length (trainloader_batches dataset sampler e) = (length dataset + 63) / 64 /\
  Forall (fun b => 0 < length b <= 64) (trainloader_batches dataset sampler e) /\
  (forall j b, trainloader_batches dataset sampler e !! j = Some b ->
     S j < length (trainloader_batches dataset sampler e) -> length b = 64).
Proof.
  intros Hperm.
  assert (Hp : map (fun i => dataset !!! i) (sampler e) ≡ₚ dataset).
  { transitivity (map (fun i => dataset !!! i) (seq 0 (length dataset))).
    - by apply Permutation_map.
    - by rewrite map_lookup_total_seq. }
  unfold trainloader_batches, data_loader, batches.
  destruct (batches_go_spec (length (map (fun i => dataset !!! i) (sampler e))) 64
              (map (fun i => dataset !!! i) (sampler e))) as (Hc & Hn & Hf & Hfull);
    [lia|done|].
  split; [by rewrite Hc|].
  split; [rewrite Hn, (Permutation_length Hp); f_equal; lia|].
  split; done.
Qed.

Lemma trainloader_epoch_witness :
  (fun _ : nat => [2; 0; 1]) 0 ≡ₚ seq 0 (length [10; 20; 30]) /\
  let loader := trainloader_batches [10; 20; 30] (fun _ => [2; 0; 1]) 0 in
  concat loader ≡ₚ [10; 20; 30] /\
  length loader = (length [10; 20; 30] + 63) / 64 /\
  Forall (fun b => 0 < length b <= 64) loader /\
  (forall j b, loader !! j = Some b -> S j < length loader -> length b = 64).
Proof.
  assert (Hp : (fun _ : nat => [2; 0; 1]) 0 ≡ₚ seq 0 (length [10; 20; 30])).
  { apply (bool_decide_eq_true_1 _). vm_compute. reflexivity. }
  split; [exact Hp|]. exact (trainloader_epoch [10; 20; 30] (fun _ => [2; 0; 1]) 0 Hp).
Defined.

(** The saving notebook run cell by cell. *)

Lemma same_linear_trans l1 l2 l3 :
  same_linear l1 l2 -> same_linear l2 l3 -> same_linear l1 l3.
Proof. intros (?&?&?&?) (?&?&?&?). repeat split; congruence. Qed.

Lemma same_linear_sym l1 l2 : same_linear l1 l2 -> same_linear l2 l1.
Proof. intros (?&?&?&?). repeat split; congruence. Qed.

Lemma Forall2_same_linear_trans ls1 ls2 ls3 :
  Forall2 same_linear ls1 ls2 -> Forall2 same_linear ls2 ls3 ->
  Forall2 same_linear ls1 ls3.
Proof.
  intros H1. revert ls3.
  induction H1; intros ls3 H2; inversion H2; subst; constructor;
    eauto using same_linear_trans.
Qed.

Lemma same_network_trans n1 n2 n3 :
  same_network n1 n2 -> same_network n2 n3 -> same_network n1 n3.
Proof.
  intros (H1 & O1 & D1) (H2 & O2 & D2). split; [|split; [by eapply same_linear_trans|congruence]].
  by eapply Forall2_same_linear_trans.
Qed.

Lemma same_network_sym n1 n2 : same_network n1 n2 -> same_network n2 n1.
Proof.
  intros (H1 & O1 & D1). split; [|split; [by apply same_linear_sym|congruence]].
  apply Forall2_flip. eapply Forall2_impl; [exact H1|]. apply same_linear_sym.
Qed.

Lemma same_network_out_features n n' :
  same_network n n' -> map out_features (hidden_layers n') = map out_features (hidden_layers n).
Proof.
  intros (Hh & _ & _). induction Hh as [|l l' ls ls' (_ & Ho & _) _ IH]; [done|].
  simpl. by rewrite Ho, IH.
Qed.

Lemma torch_load_save v path fs : torch_load path (torch_save v path fs) = Some v.
Proof. unfold torch_load, torch_save. by rewrite lookup_insert_eq. Qed.

Lemma load_checkpoint_saved i o hs init init' n0 n path fs :
  fc_model_Network i o hs init = Some n0 -> same_network n0 n ->
  load_checkpoint path (torch_save (make_checkpoint i o n) path fs) init' = Some n.
Proof.
  intros Hn0 Hsame.
  destruct (fc_model_Network_reinit i o hs init init' n0 Hn0) as (n' & Hn' & Hsame').
  assert (Hout : map out_features (hidden_layers n) = hs).
  { rewrite (same_network_out_features n0 n Hsame).
    by destruct (fc_model_Network_hidden _ _ _ _ _ Hn0). }
  unfold load_checkpoint, torch_load, torch_save.
  rewrite lookup_insert_eq. simpl.
  rewrite as_int_list_map, Hout. simpl.
  unfold state_dict_value. rewrite as_tensor_items_value. simpl.
  rewrite Hn'. simpl. rewrite load_state_dict_same; [done|].
  eapply same_network_trans; [apply same_network_sym, Hsame|exact Hsame'].
Qed.

(** X10: run cell by cell, the "Try this" cell of the saving notebook leaves
    [model] bound to the [Network(784, 10, [400, 200, 100])] it built, with
    only [output.bias] (the one tensor whose shape agrees) copied from the
    trained state dict; the checkpoint cell saves that model, and
    [load_checkpoint("checkpoint.pth")] returns it: widths
    [400, 200, 100], the fresh hidden layers and output weight, and the
    trained output bias. *)
Theorem saving_notebook_checkpoint init trained0 trained init_try init_load fs :
  fc_model_Network 784 10 [512; 256; 128] init = Some trained0 ->
  same_network trained0 trained ->
  exists m0 m,
    fc_model_Network 784 10 [400; 200; 100] init_try = Some m0 /\
    saving_notebook_run trained init_try init_load fs = Some m /\
    map out_features (hidden_layers m) = [400; 200; 100] /\
    hidden_layers m = hidden_layers m0 /\
    weight (output m) = weight (output m0) /\
    bias (output m) = bias (output trained).
Proof.
  intros Htr0 Hsame.
  injection Htr0 as <-.
  destruct trained as [ths to td].
  destruct Hsame as (Hh & Ho & Hd). cbn in Hh, Ho, Hd.
  destruct ths as [|t1 [|t2 [|t3 [|t4 ths]]]];
    inversion Hh as [|? ? ? ? S1 Hh1]; subst;
    inversion Hh1 as [|? ? ? ? S2 Hh2]; subst;
    inversion Hh2 as [|? ? ? ? S3 Hh3]; subst;
    inversion Hh3; subst.
  destruct t1 as [i1 o1 [w1s w1d] [b1s b1d]], t2 as [i2 o2 [w2s w2d] [b2s b2d]],
           t3 as [i3 o3 [w3s w3d] [b3s b3d]], to as [i4 o4 [w4s w4d] [b4s b4d]].
  destruct S1 as (? & ? & ? & ?), S2 as (? & ? & ? & ?), S3 as (? & ? & ? & ?),
           Ho as (? & ? & ? & ?).
  cbn in *. subst.
  match goal with |- context [saving_notebook_run ?t _ _ _] => set (trained := t) end.
  set (m0 := {| hidden_layers := hidden_from init_try 0 784 [400; 200; 100];
                output := nn_Linear init_try 3 100 10; dropout := (1, 2) |}).
  assert (Hm0 : fc_model_Network 784 10 [400; 200; 100] init_try = Some m0)
    by reflexivity.
  assert (Hm : fst (load_state_dict m0 (state_dict trained)) =
            {| hidden_layers := hidden_layers m0;
               output := {| in_features := 100; out_features := 10;
                            weight := weight (output m0);
                            bias := mkTensor [10] b4d |};
               dropout := (1, 2) |}).
  { vm_compute. reflexivity. }
  assert (Hw : map out_features (hidden_layers m0) = [400; 200; 100])
    by reflexivity.
  clearbody trained m0.
  exists m0, (fst (load_state_dict m0 (state_dict trained))).
  split; [done|]. split.
  - unfold saving_notebook_run. rewrite torch_load_save.
    unfold state_dict_value. cbn [mbind option_bind as_dict].
    rewrite as_tensor_items_value.
    cbn [mbind option_bind]. rewrite Hm0. cbn [mbind option_bind].
    eapply load_checkpoint_saved; [exact Hm0|].
    apply load_state_dict_effect.
  - rewrite Hm. cbn [hidden_layers output weight bias].
    split; [exact Hw|]. split; [done|]. split; [done|]. reflexivity.
Qed.

Lemma saving_notebook_checkpoint_witness :
  exists trained0,
    fc_model_Network 784 10 [512; 256; 128] demo_init = Some trained0 /\
    same_network trained0 trained0 /\
    exists m0 m,
      fc_model_Network 784 10 [400; 200; 100] (fun _ _ => []) = Some m0 /\
      saving_notebook_run trained0 (fun _ _ => []) demo_init ∅ = Some m /\
      map out_features (hidden_layers m) = [400; 200; 100] /\
      hidden_layers m = hidden_layers m0 /\
      weight (output m) = weight (output m0) /\
      bias (output m) = bias (output trained0).
Proof.
  eexists. split; [reflexivity|].
  assert (Hs : same_network
    {| hidden_layers := hidden_from demo_init 0 784 [512; 256; 128];
       output := nn_Linear demo_init 3 128 10; dropout := (1, 2) |}
    {| hidden_layers := hidden_from demo_init 0 784 [512; 256; 128];
       output := nn_Linear demo_init 3 128 10; dropout := (1, 2) |}).
  { vm_compute. repeat constructor. }
  split; [exact Hs|].
  exact (saving_notebook_checkpoint demo_init _ _ (fun _ _ => []) demo_init ∅
           eq_refl Hs).
Defined.
